(** * prestgo: the Presto database/sql driver (conn.go)

    A shallow embedding of [conn.go]: the data source parser, the query
    submission, the poll-and-fetch loop, the row cursor and the value
    converters, together with the properties the driver's specification
    states about them.

    Go strings are byte strings ([string] over [ascii]); Go [int] indices
    are [Z]; maps are stdpp [gmap]s.  The HTTP client the driver is handed
    is a scripted transport: a list of outcomes, one per [client.Do] call,
    and every request, sleep and diagnostic line is recorded in a trace. *)

From Stdlib Require Import ZArith String Ascii List Bool Lia.
From Stdlib Require Import Floats.SpecFloat.
From stdpp Require Import base option list strings gmap fin_maps.

Import ListNotations.
Local Open Scope string_scope.
Local Open Scope Z_scope.
Set Warnings "-register-all".

(** ** The parts of Go's [strings] package the driver calls *)

Module strings.

(** [strings.HasPrefix(s, prefix)] *)
Definition HasPrefix (s pre : string) : bool := String.prefix pre s.

(** [len(s)], in bytes *)
Definition len (s : string) : Z := Z.of_nat (String.length s).

(** [s[:i]] and [s[i:]] for [0 <= i <= len(s)] *)
Definition slice_to (s : string) (i : Z) : string :=
  String.substring 0 (Z.to_nat i) s.

Definition slice_from (s : string) (i : Z) : string :=
  String.substring (Z.to_nat i) (String.length s - Z.to_nat i) s.

(** [strings.LastIndex(s, sep)]: the byte index of the last occurrence of
    [sep] in [s], or -1.  [go i s acc] scans the suffixes of [s], the
    first of which starts at index [i]. *)
Fixpoint LastIndex_go (i : Z) (s sep : string) (acc : Z) : Z :=
  let acc' := if String.prefix sep s then i else acc in
  match s with
  | EmptyString => acc'
  | String _ t => LastIndex_go (i + 1) t sep acc'
  end.

Definition LastIndex (s sep : string) : Z := LastIndex_go 0 s sep (-1).

(** [strings.IndexRune(s, r)] for a rune [r] below [utf8.RuneSelf]: the
    index of the first byte equal to [r], or -1. *)
Fixpoint IndexRune_go (i : Z) (s : string) (r : ascii) : Z :=
  match s with
  | EmptyString => -1
  | String c t => if Ascii.eqb c r then i else IndexRune_go (i + 1) t r
  end.

Definition IndexRune (s : string) (r : ascii) : Z := IndexRune_go 0 s r.

(** [strings.FieldsFunc(s, f)]: the maximal runs of bytes that do not
    satisfy [f]; empty runs are dropped.  [cur] is the field being read,
    reversed. *)
Fixpoint FieldsFunc_go (f : ascii -> bool) (s : string) (cur : list ascii)
  : list string :=
  let flush rest :=
    match cur with
    | [] => rest
    | _ => string_of_list_ascii (rev cur) :: rest
    end in
  match s with
  | EmptyString => flush []
  | String c t =>
      if f c then flush (FieldsFunc_go f t [])
      else FieldsFunc_go f t (c :: cur)
  end.

Definition FieldsFunc (s : string) (f : ascii -> bool) : list string :=
  FieldsFunc_go f s [].

(** [strings.Join(elems, sep)] *)
Fixpoint Join (elems : list string) (sep : string) : string :=
  match elems with
  | [] => ""
  | [e] => e
  | e :: rest => e ++ sep ++ Join rest sep
  end.

End strings.

(** ** Constants *)

Definition DriverName : string := "prestgo".
Definition DefaultPort : string := "8080".
Definition DefaultCatalog : string := "hive".
Definition DefaultSchema : string := "default".
Definition DefaultUsername : string := "prestgo".
Definition TimestampFormat : string := "2006-01-02 15:04:05.000".
Definition DateFormat : string := "2006-01-02".

(** Modelled from the spec: the declared-type names of the driver's type
    table (section 4.3), which [conn.go] uses by name ([Row], [VarChar],
    ...) and which are declared in a file that is not part of the sources
    at hand. *)
Definition Row : string := "row".
Definition VarChar : string := "varchar".
Definition Char : string := "char".
Definition JSON : string := "json".
Definition BigInt : string := "bigint".
Definition Integer : string := "integer".
Definition Smallint : string := "smallint".
Definition Tinyint : string := "tinyint".
Definition Boolean : string := "boolean".
Definition Double : string := "double".
Definition Real : string := "real".
Definition Decimal : string := "decimal".
Definition Date : string := "date".
Definition Time : string := "time".
Definition TimeWithTimezone : string := "time with time zone".
Definition Timestamp : string := "timestamp".
Definition TimestampWithTimezone : string := "timestamp with time zone".

(** Modelled from the spec: the execution states of section 3, which
    [waitForData] switches on by name ([QueryStateFailed], ...). *)
Definition QueryStateQueued : string := "QUEUED".
Definition QueryStatePlanning : string := "PLANNING".
Definition QueryStateStarting : string := "STARTING".
Definition QueryStateRunning : string := "RUNNING".
Definition QueryStateFinished : string := "FINISHED".
Definition QueryStateFailed : string := "FAILED".
Definition QueryStateCanceled : string := "CANCELED".

(** ** Wire values and the response envelope *)

(** A raw value as [encoding/json] decodes it into an [interface{}]:
    [nil], [float64], [string], [bool], [[]interface{}] or
    [map[string]interface{}]. *)
Inductive value : Type :=
| VNil
| VFloat64 (f : spec_float)
| VString (s : string)
| VBool (b : bool)
| VArray (elems : list value)
| VObject (fields : list (string * value)).

(** The [%T] verb of [fmt]: the name of a value's dynamic type. *)
Definition fmt_T (v : value) : string :=
  match v with
  | VNil => "<nil>"
  | VFloat64 _ => "float64"
  | VString _ => "string"
  | VBool _ => "bool"
  | VArray _ => "[]interface {}"
  | VObject _ => "map[string]interface {}"
  end.

(** Modelled from the spec: the structured server error of the envelope
    (section 6, "failure message/code"); its type is declared outside
    [conn.go]. *)
Record stmtError : Type := {
  ErrorMessage : string;
  ErrorCode : Z
}.

Record queryColumn : Type := {
  Name : string;
  Type_ : string
}.

(** [queryData]: one row of raw values. *)
Definition queryData : Type := list value.

(** Modelled from the spec: the response envelope of section 6, decoded.
    [stmtResponse] (the answer to the submission) has the first three
    fields, [queryResponse] (the answer to a poll) all five. *)
Record stmtResponse : Type := {
  sState : string;
  sError : stmtError;
  sNextURI : string
}.

Record queryResponse : Type := {
  State : string;
  Error : stmtError;
  NextURI : string;
  Columns : list queryColumn;
  Data : list queryData
}.

(** ** Errors *)

(** Where an error value made outside the driver comes from. *)
Inductive origin : Type :=
| from_NewRequest   (* http.NewRequest *)
| from_Do           (* client.Do: the transport *)
| from_Decode       (* json.Decoder.Decode *)
| from_time         (* time.LoadLocation, time.ParseInLocation *)
| from_url          (* url.Parse *)
| from_driver.      (* driver.String.ConvertValue, driver.Bool.ConvertValue *)

Inductive error : Type :=
| io_EOF
| ErrNotSupported
| ErrQueryFailed
| ErrQueryCanceled
| ServerError (e : stmtError)            (* [sresp.Error], [qresp.Error] *)
| Errorf (msg : string)                  (* [fmt.Errorf] *)
| Foreign (o : origin) (msg : string).   (* an error passed through *)

Inductive result (A : Type) : Type :=
| Ok (a : A)
| Err (e : error).
Arguments Ok {A} a.
Arguments Err {A} e.

(** ** The Go libraries behind the driver

    What the driver calls and does not define is taken as an interface:
    package [time] here, the rest in [GoLib] below. An error of these
    packages is carried as its text ([inl]). *)

Class GoTime : Type := {
  time_Time : Type;
  time_Location : Type;
  time_UTC : time_Location;
  time_LoadLocation : string -> string + time_Location;
  time_ParseInLocation :
    string -> string -> time_Location -> string + time_Time
}.

(** A [driver.Value] as the converters produce it. *)
Inductive driver_Value `{GoTime} : Type :=
| DNil
| DInt64 (n : Z)
| DFloat64 (f : spec_float)
| DBool (b : bool)
| DString (s : string)
| DTime (t : time_Time)
| DRaw (v : value).   (* a raw value handed on as it is *)

Class GoLib `{GoTime} : Type := {
  (** the [%v] verb of [fmt] *)
  fmt_v : value -> string;
  (** [int64(f)] where the integer part of [f] is no int64 (or [f] is an
      infinity or a NaN): the language leaves the result to the platform *)
  int64_unrepresentable : spec_float -> Z;
  strings_TrimSpace : string -> string;
  driver_String_ConvertValue : value -> result driver_Value;
  driver_Bool_ConvertValue : value -> result driver_Value;
  (** [http.NewRequest(method, url, body)]: the error, if any *)
  http_NewRequest : string -> string -> option string
}.

(** ** Value converters *)

Section Converters.
Context `{GoLib}.

Definition valueConverterFunc : Type := value -> result driver_Value.

Record rowConverter : Type := { rcType : string }.

(** [driver.ValueConverter], implemented by [rowConverter] and by
    [valueConverterFunc]. *)
Inductive ValueConverter : Type :=
| of_rowConverter (rc : rowConverter)
| of_valueConverterFunc (fn : valueConverterFunc).

Definition rowConverter_ConvertValue (rc : rowConverter) (v : value)
  : result driver_Value :=
  match v with
  | VNil => Ok DNil
  | _ => Ok (DRaw v)
  end.

Definition ConvertValue (c : ValueConverter) (v : value)
  : result driver_Value :=
  match c with
  | of_rowConverter rc => rowConverter_ConvertValue rc v
  | of_valueConverterFunc fn => fn v
  end.

Definition stringConverter : valueConverterFunc := fun val =>
  match val with
  | VNil => Ok DNil
  | _ => driver_String_ConvertValue val
  end.

Definition boolConverter : valueConverterFunc := fun val =>
  match val with
  | VNil => Ok DNil
  | _ => driver_Bool_ConvertValue val
  end.

(** The integer part of a float, rounding toward zero; [None] for the
    infinities and NaN. *)
Definition float64_truncate (f : spec_float) : option Z :=
  match f with
  | S754_zero _ => Some 0
  | S754_finite s m e =>
      let mag := if 0 <=? e then Z.shiftl (Zpos m) e
                 else Z.shiftr (Zpos m) (- e) in
      Some (if s then - mag else mag)
  | S754_infinity _ | S754_nan => None
  end.

Definition int64_min : Z := - 2 ^ 63.
Definition int64_max : Z := 2 ^ 63 - 1.

(** The conversion [int64(vv)] of a [float64]. *)
Definition int64_of_float64 (vv : spec_float) : Z :=
  match float64_truncate vv with
  | Some z =>
      if (int64_min <=? z) && (z <=? int64_max) then z
      else int64_unrepresentable vv
  | None => int64_unrepresentable vv
  end.

(** [fmt.Errorf("%s: failed to convert %v (%T) into type <target>", ...)] *)
Definition convert_failure (val : value) (target : string) : error :=
  Errorf (DriverName ++ ": failed to convert " ++ fmt_v val
          ++ " (" ++ fmt_T val ++ ") into type " ++ target).

Definition bigIntConverter : valueConverterFunc := fun val =>
  match val with
  | VNil => Ok DNil
  | VFloat64 vv => Ok (DInt64 (int64_of_float64 vv))
  | _ => Err (convert_failure val "int64")
  end.

Definition doubleConverter : valueConverterFunc := fun val =>
  match val with
  | VNil => Ok DNil
  | VFloat64 vv => Ok (DFloat64 vv)
  | VString vv =>
      if String.eqb vv "Infinity" then Ok (DFloat64 (S754_infinity false))
      else if String.eqb vv "-Infinity" then Ok (DFloat64 (S754_infinity true))
      else if String.eqb vv "NaN" then Ok (DFloat64 S754_nan)
      else Err (convert_failure val "float64")
  | _ => Err (convert_failure val "float64")
  end.

Definition dateConverter : valueConverterFunc := fun val =>
  match val with
  | VNil => Ok DNil
  | VString vv =>
      match time_ParseInLocation DateFormat vv time_UTC with
      | inr ts => Ok (DTime ts)
      | inl _ => Err (convert_failure val "time.Time")
      end
  | _ => Err (convert_failure val "time.Time")
  end.

Definition timestampConverter : valueConverterFunc := fun val =>
  match val with
  | VNil => Ok DNil
  | VString vv =>
      match time_ParseInLocation TimestampFormat vv time_UTC with
      | inr ts => Ok (DTime ts)
      | inl _ => Err (convert_failure val "time.Time")
      end
  | _ => Err (convert_failure val "time.Time")
  end.

Definition timestampWithTimezoneConverter : valueConverterFunc := fun val =>
  match val with
  | VNil => Ok DNil
  | VString vv =>
      if strings.len vv <=? strings.len TimestampFormat then
        timestampConverter val
      else
        let tzOffset := strings.LastIndex vv " " in
        if tzOffset =? -1 then timestampConverter val
        else
          match time_LoadLocation
                  (strings_TrimSpace (strings.slice_from vv tzOffset)) with
          | inl err => Err (Foreign from_time err)
          | inr tz =>
              match time_ParseInLocation TimestampFormat
                      (strings.slice_to vv tzOffset) tz with
              | inl err => Err (Foreign from_time err)
              | inr ts => Ok (DTime ts)
              end
          end
  | _ => Err (convert_failure val "time.Time")
  end.

End Converters.

(** ** The transport, and the effects of the driver

    [client.Do] is answered from a script, one entry per call. A response
    body is held as [json.Decoder.Decode] reads it: the decoded envelope, or
    the decoder's error ([decode_error] below). *)

Record http_Request : Type := {
  Method : string;
  URL : string;
  Header : list (string * string);
  Body : string
}.

(** The error of [json.Decoder.Decode]: [io.EOF] itself when the body is
    empty or blank, another error (a syntax error, an unexpected end, a
    type mismatch) otherwise. The driver returns it as it is. *)
Inductive decode_error : Type :=
| decode_EOF
| decode_failure (msg : string).

Definition decode_error_value (d : decode_error) : error :=
  match d with
  | decode_EOF => io_EOF
  | decode_failure msg => Foreign from_Decode msg
  end.

Inductive do_outcome : Type :=
| DoErr (err : string)                                 (* [err != nil] *)
| DoResp (StatusCode : Z) (body : decode_error + queryResponse).

Inductive event : Type :=
| EvDo (req : http_Request)
| EvSleep (ms : Z)
| EvPrintln (line : string).

Record world : Type := {
  script : list do_outcome;
  trace : list event
}.

Definition emit (e : event) (w : world) : world :=
  {| script := script w; trace := trace w ++ [e] |}.

(** How a call ends: it returns, it panics, or it never comes back because
    the transport has no further answer. *)
Inductive outcome (A : Type) : Type :=
| Returns (a : A)
| Panics
| Blocks.
Arguments Returns {A} a.
Arguments Panics {A}.
Arguments Blocks {A}.

Definition M (A : Type) : Type := world -> outcome A * world.

Definition ret {A} (a : A) : M A := fun w => (Returns a, w).

Definition bind {A B} (c : M A) (k : A -> M B) : M B := fun w =>
  match c w with
  | (Returns a, w') => k a w'
  | (Panics, w') => (Panics, w')
  | (Blocks, w') => (Blocks, w')
  end.

Definition panic {A} : M A := fun w => (Panics, w).

#[global] Instance M_ret : MRet M := @ret.
#[global] Instance M_bind : MBind M := fun A B k c => bind c k.

Definition client_Do (req : http_Request) : M do_outcome := fun w =>
  match script w with
  | [] => (Blocks, emit (EvDo req) w)
  | o :: rest =>
      (Returns o, {| script := rest; trace := trace w ++ [EvDo req] |})
  end.

Definition time_Sleep (ms : Z) : M unit := fun w =>
  (Returns tt, emit (EvSleep ms) w).

Definition fmt_Println (line : string) : M unit := fun w =>
  (Returns tt, emit (EvPrintln line) w).

(** ** Connections, statements and rows *)

Record conn : Type := {
  addr : string;
  catalog : string;
  schema : string;
  user : string;
  source : string;
  session : string
}.

Record stmt : Type := {
  stmt_conn : conn;
  query : string
}.

Section Driver.
Context `{GoLib}.

Record rows : Type := {
  rows_conn : conn;
  nextURI : string;
  fetched : bool;
  rowindex : nat;
  columns : list string;
  types : list ValueConverter;
  data : list queryData
}.

Definition set_nextURI (r : rows) (u : string) : rows :=
  {| rows_conn := rows_conn r; nextURI := u; fetched := fetched r;
     rowindex := rowindex r; columns := columns r; types := types r;
     data := data r |}.

(** The answer to the submission, decoded into a [stmtResponse]. *)
Definition as_stmtResponse (q : queryResponse) : stmtResponse :=
  {| sState := State q; sError := Error q; sNextURI := NextURI q |}.

Definition add_if_set (k v : string) (h : list (string * string))
  : list (string * string) :=
  if String.eqb v "" then h else h ++ [(k, v)].

Definition Query (s : stmt) (args : list driver_Value) : M (result rows) :=
  if (0 <? Z.of_nat (length args)) then ret (Err ErrNotSupported)
  else
    let c := stmt_conn s in
    let queryURL := "http://" ++ addr c ++ "/v1/statement" in
    match http_NewRequest "POST" queryURL with
    | Some err => ret (Err (Foreign from_NewRequest err))
    | None =>
        let hdr := [("X-Presto-User", user c);
                    ("X-Presto-Catalog", catalog c);
                    ("X-Presto-Schema", schema c)] in
        let hdr := add_if_set "X-Presto-Source" (source c) hdr in
        let hdr := add_if_set "X-Presto-Session" (session c) hdr in
        resp ← client_Do {| Method := "POST"; URL := queryURL;
                             Header := hdr; Body := query s |};
        match resp with
        | DoErr err => ret (Err (Foreign from_Do err))
        | DoResp StatusCode body =>
            if negb (StatusCode =? 200) then ret (Err ErrQueryFailed)
            else
              match body with
              | inl err => ret (Err (decode_error_value err))
              | inr envelope =>
                  let sresp := as_stmtResponse envelope in
                  if String.eqb (sState sresp) "FAILED"
                  then ret (Err (ServerError (sError sresp)))
                  else
                    time_Sleep 500;;
                    ret (Ok {| rows_conn := c; nextURI := sNextURI sresp;
                               fetched := false; rowindex := 0%nat;
                               columns := []; types := []; data := [] |})
              end
        end
    end.

(** The states of the third case of [waitForData]'s switch. *)
Definition still_working (state : string) : bool :=
  String.eqb state QueryStatePlanning || String.eqb state QueryStateQueued
  || String.eqb state QueryStateRunning || String.eqb state QueryStateStarting.

Definition waitForData (r : rows)
  : M (rows * (option queryResponse * bool * option error)) :=
  match http_NewRequest "GET" (nextURI r) with
  | Some err => ret (r, (None, false, Some (Foreign from_NewRequest err)))
  | None =>
      nextResp ← client_Do {| Method := "GET"; URL := nextURI r;
                               Header := []; Body := "" |};
      match nextResp with
      | DoErr err => ret (r, (None, false, Some (Foreign from_Do err)))
      | DoResp StatusCode body =>
          if negb (StatusCode =? 200)
          then ret (r, (None, false, Some ErrQueryFailed))
          else
            match body with
            | inl err => ret (r, (None, false, Some (decode_error_value err)))
            | inr qresp =>
                if String.eqb (State qresp) QueryStateFailed
                then ret (r, (None, false, Some (ServerError (Error qresp))))
                else if String.eqb (State qresp) QueryStateCanceled
                then ret (r, (None, false, Some ErrQueryCanceled))
                else if still_working (State qresp)
                        && (length (Data qresp) =? 0)%nat
                then ret (set_nextURI r (NextURI qresp), (None, false, None))
                else ret (r, (Some qresp, true, None))
            end
      end
  end.

(** The switch of [fetch] on a column's declared type: the converter,
    and whether the type is one the driver knows (the [default] case
    prints a notice). *)
Definition column_converter (ty : string) : ValueConverter * bool :=
  if strings.HasPrefix ty Row
  then (of_rowConverter {| rcType := ty |}, true)
  else if strings.HasPrefix ty VarChar || strings.HasPrefix ty Char
  then (of_valueConverterFunc stringConverter, true)
  else if String.eqb ty JSON
  then (of_valueConverterFunc stringConverter, true)
  else if String.eqb ty BigInt || String.eqb ty Integer
          || String.eqb ty Smallint || String.eqb ty Tinyint
  then (of_valueConverterFunc bigIntConverter, true)
  else if String.eqb ty Boolean
  then (of_valueConverterFunc boolConverter, true)
  else if String.eqb ty Double || String.eqb ty Real
  then (of_valueConverterFunc doubleConverter, true)
  else if strings.HasPrefix ty Decimal
  then (of_valueConverterFunc stringConverter, true)
  else if String.eqb ty Date
  then (of_valueConverterFunc dateConverter, true)
  else if String.eqb ty Time
  then (of_valueConverterFunc stringConverter, true)
  else if String.eqb ty TimeWithTimezone
  then (of_valueConverterFunc stringConverter, true)
  else if String.eqb ty Timestamp
  then (of_valueConverterFunc timestampConverter, true)
  else if String.eqb ty TimestampWithTimezone
  then (of_valueConverterFunc timestampWithTimezoneConverter, true)
  else (of_valueConverterFunc stringConverter, false).

(** The loop over [qresp.Columns]: names and converters, column by
    column. *)
Fixpoint bind_columns (cols : list queryColumn)
  : M (list string * list ValueConverter) :=
  match cols with
  | [] => mret ([], [])
  | col :: rest =>
      let (cv, known) := column_converter (Type_ col) in
      (if known then mret tt
       else fmt_Println ("unsupported column type: " ++ Type_ col));;
      '(names, convs) ← bind_columns rest;
      mret (Name col :: names, cv :: convs)
  end.

(** The backoff between two polls, in milliseconds. *)
Definition backoff_ms : Z := 800.

(** [fetch]: the [for] loop, one iteration per unit of [fuel]. *)
Fixpoint fetch_loop (fuel : nat) (r : rows) : M (rows * option error) :=
  match fuel with
  | O => fun w => (Blocks, w)
  | S fuel' =>
      '(r, (qresp, gotData, err)) ← waitForData r;
      match err with
      | Some e => mret (r, Some e)
      | None =>
          if negb gotData then
            time_Sleep backoff_ms;;
            fetch_loop fuel' r
          else
            match qresp with
            | None => panic   (* a nil [qresp] would be dereferenced *)
            | Some qresp =>
                let r := {| rows_conn := rows_conn r;
                            nextURI := NextURI qresp;
                            fetched := fetched r;
                            rowindex := 0%nat;
                            columns := columns r; types := types r;
                            data := Data qresp |} in
                r ← (if negb (fetched r) then
                       '(names, convs) ← bind_columns (Columns qresp);
                       mret {| rows_conn := rows_conn r;
                               nextURI := nextURI r;
                               fetched := true;
                               rowindex := rowindex r;
                               columns := names; types := convs;
                               data := data r |}
                     else mret r);
                if (length (Data qresp) =? 0)%nat
                then mret (r, Some io_EOF)
                else mret (r, None)
            end
      end
  end.

(** Every iteration but the last takes one answer from the transport, so
    one more unit of fuel than there are answers left is enough. *)
Definition fetch (r : rows) : M (rows * option error) := fun w =>
  fetch_loop (S (length (script w))) r w.

Definition rows_Columns (r : rows) : M (rows * list string) :=
  if negb (fetched r) then
    '(r, err) ← fetch r;
    match err with
    | Some _ => mret (r, [])
    | None => mret (r, columns r)
    end
  else mret (r, columns r).

(** The conversion loop of [Next]: column [i] onwards. *)
Fixpoint convert_row (i : nat) (convs : list ValueConverter) (r : rows)
    (dest : list driver_Value) : M (list driver_Value * option error) :=
  match convs with
  | [] => mret (dest, None)
  | v :: convs' =>
      match data r !! rowindex r with
      | None => panic
      | Some row =>
          match row !! i with
          | None => panic
          | Some raw =>
              match ConvertValue v raw with
              | Err e => mret (dest, Some e)
              | Ok val =>
                  if (i <? length dest)%nat
                  then convert_row (S i) convs' r (<[i := val]> dest)
                  else panic
              end
          end
      end
  end.

Definition set_rowindex (r : rows) (n : nat) : rows :=
  {| rows_conn := rows_conn r; nextURI := nextURI r; fetched := fetched r;
     rowindex := n; columns := columns r; types := types r;
     data := data r |}.

Definition Next_convert (r : rows) (dest : list driver_Value)
  : M (rows * list driver_Value * option error) :=
  '(dest, err) ← convert_row 0 (types r) r dest;
  match err with
  | Some e => mret (r, dest, Some e)
  | None => mret (set_rowindex r (S (rowindex r)), dest, None)
  end.

Definition Next (r : rows) (dest : list driver_Value)
  : M (rows * list driver_Value * option error) :=
  if negb (fetched r) || (length (data r) <=? rowindex r)%nat then
    if String.eqb (nextURI r) "" then mret (r, dest, Some io_EOF)
    else
      '(r, err) ← fetch r;
      match err with
      | Some e => mret (r, dest, Some e)
      | None => Next_convert r dest
      end
  else Next_convert r dest.

End Driver.

(** ** The data source name *)

(** The fields of a parsed [url.URL] that the driver reads; [User] is the
    user name of [u.User], [None] when [u.User] is nil. *)
Record url_URL : Type := {
  User : option string;
  Host : string;
  Path : string;
  RawQuery : string
}.

(** Package [net/url]: [url.Parse] and [url.ParseQuery] (whose error the
    driver drops, keeping the values parsed so far). *)
Class GoURL : Type := {
  url_Parse : string -> string + url_URL;
  url_ParseQuery : string -> gmap string (list string)
}.

Section DataSource.
Context `{GoURL}.

(** [config] is a [map[string]string]; the receiver is updated in place,
    so the map after the call is part of the result. *)
Definition parseDataSource (c : gmap string string) (ds : string)
  : gmap string string * option error :=
  match url_Parse ds with
  | inl err => (c, Some (Foreign from_url err))
  | inr u =>
      let c := match User u with
               | Some name => <["user" := name]> c
               | None => <["user" := DefaultUsername]> c
               end in
      let c := if strings.IndexRune (Host u) ":" =? -1
               then <["addr" := Host u ++ ":" ++ DefaultPort]> c
               else <["addr" := Host u]> c in
      let c := <["catalog" := DefaultCatalog]> c in
      let c := <["schema" := DefaultSchema]> c in
      let pathSegments :=
        strings.FieldsFunc (Path u) (fun c => Ascii.eqb c "/") in
      let c := match pathSegments with
               | seg0 :: _ => <["catalog" := seg0]> c
               | [] => c
               end in
      let c := match pathSegments with
               | _ :: seg1 :: _ => <["schema" := seg1]> c
               | _ => c
               end in
      let m := url_ParseQuery (RawQuery u) in
      (map_fold (fun k v c => <[k := strings.Join v ","]> c) c m, None)
  end.

(** Reading a key of a Go map that may be absent gives the empty
    string. *)
Definition config_get (c : gmap string string) (k : string) : string :=
  default "" (c !! k).

Definition ClientOpen (name : string) : result conn :=
  let conf := fst (parseDataSource ∅ name) in
  Ok {| addr := config_get conf "addr";
        catalog := config_get conf "catalog";
        schema := config_get conf "schema";
        user := config_get conf "user";
        source := config_get conf "source";
        session := config_get conf "session" |}.

End DataSource.

(** ** Vocabulary of the properties *)

(** Whether the byte [c] occurs in [s]. *)
Fixpoint has_byte (c : ascii) (s : string) : bool :=
  match s with
  | EmptyString => false
  | String b t => Ascii.eqb b c || has_byte c t
  end.

(** A poll answer that [waitForData] reports as "no data yet": one of the
    four working states and an empty page. *)
Definition not_ready (q : queryResponse) : bool :=
  still_working (State q) && (length (Data q) =? 0)%nat.

(** A poll answer that [waitForData] hands to [fetch] as a page. *)
Definition accepted (q : queryResponse) : bool :=
  negb (String.eqb (State q) QueryStateFailed)
  && negb (String.eqb (State q) QueryStateCanceled)
  && negb (not_ready q).

(** The transport answering with status 200 and the envelope [q]. *)
Definition answer (q : queryResponse) : do_outcome := DoResp 200 (inr q).

(** The submission URL of a statement. *)
Definition queryURL (s : stmt) : string :=
  "http://" ++ addr (stmt_conn s) ++ "/v1/statement".

(** The request [waitForData] sends for the handle [u]. *)
Definition poll_request (u : string) : http_Request :=
  {| Method := "GET"; URL := u; Header := []; Body := "" |}.

(** What [fetch] does while the answers [qs] arrive, starting from the
    handle [h]: poll, sleep, poll the handle of the answer just read, ... *)
Fixpoint backoff_trace (h : string) (qs : list queryResponse) : list event :=
  match qs with
  | [] => []
  | q :: qs' =>
      EvDo (poll_request h) :: EvSleep 800 :: backoff_trace (NextURI q) qs'
  end.

(** The handle in hand after the answers [qs]. *)
Definition last_handle (h : string) (qs : list queryResponse) : string :=
  List.last (map NextURI qs) h.

(** The handles polled in a trace, in order. *)
Fixpoint polled (tr : list event) : list string :=
  match tr with
  | [] => []
  | EvDo req :: tr' =>
      if String.eqb (Method req) "GET" then URL req :: polled tr'
      else polled tr'
  | _ :: tr' => polled tr'
  end.

(** The sleeps of a trace, in order. *)
Fixpoint sleeps (tr : list event) : list Z :=
  match tr with
  | [] => []
  | EvSleep ms :: tr' => ms :: sleeps tr'
  | _ :: tr' => sleeps tr'
  end.

Section DriverVocabulary.
Context `{GoLib}.

(** The converter [fetch] gives a column. *)
Definition converter_of (col : queryColumn) : ValueConverter :=
  fst (column_converter (Type_ col)).

(** The notices [fetch] prints while binding the columns [cols]. *)
Definition notices (cols : list queryColumn) : list event :=
  flat_map (fun col =>
              if snd (column_converter (Type_ col)) then []
              else [EvPrintln ("unsupported column type: " ++ Type_ col)])
           cols.

(** The rows after [fetch] took the page [q]: the page, the cursor and the
    handle are replaced; names and converters are written when nothing was
    fetched before, and kept otherwise. *)
Definition with_page (r : rows) (q : queryResponse) : rows :=
  {| rows_conn := rows_conn r;
     nextURI := NextURI q;
     fetched := true;
     rowindex := 0%nat;
     columns := if fetched r then columns r else map Name (Columns q);
     types := if fetched r then types r else map converter_of (Columns q);
     data := Data q |}.

(** What [fetch] reports for the page [q]. *)
Definition page_status (q : queryResponse) : option error :=
  if (length (Data q) =? 0)%nat then Some io_EOF else None.

(** Every request [fetch] builds on the way through the answers [qs],
    starting from the handle [h], is well formed. *)
Fixpoint requests_ok (h : string) (qs : list queryResponse) : Prop :=
  match qs with
  | [] => True
  | q :: qs' => http_NewRequest "GET" h = None /\ requests_ok (NextURI q) qs'
  end.

End DriverVocabulary.

(** The handles of a query in the order the server supplies them: the one
    of the submission, then the one of each answer. *)
Definition handles (h : string) (qs : list queryResponse) : list string :=
  h :: map NextURI qs.

(** An answer that reports neither FAILED nor CANCELED. *)
Definition no_failure (q : queryResponse) : Prop :=
  String.eqb (State q) QueryStateFailed = false
  /\ String.eqb (State q) QueryStateCanceled = false.

(** The first answer with a non-empty [columns] field, if any. *)
Fixpoint first_with_columns (qs : list queryResponse) : option queryResponse :=
  match qs with
  | [] => None
  | q :: qs' =>
      if (length (Columns q) =? 0)%nat then first_with_columns qs' else Some q
  end.

Section Callers.
Context `{GoLib}.

(** What the caller of a rows value may do, and a caller that does one
    thing after the other whatever error comes back. *)
Inductive call : Type :=
| CallColumns
| CallNext (dest : list driver_Value).

Fixpoint run_calls (cs : list call) (r : rows) : M rows :=
  match cs with
  | [] => mret r
  | CallColumns :: cs' =>
      '(r, _) ← rows_Columns r;
      run_calls cs' r
  | CallNext dest :: cs' =>
      '(r, _, _) ← Next r dest;
      run_calls cs' r
  end.

(** A query whose handle was [h0] at first and whose server answers [qs0],
    after [k] answers: the remaining answers are still to come, the first
    [k] handles were polled, in order, and the handle in hand is the next
    one. *)
Definition in_step (h0 : string) (qs0 : list queryResponse) (k : nat)
    (r : rows) (w : world) : Prop :=
  script w = map answer (drop k qs0)
  /\ polled (trace w) = take k (handles h0 qs0)
  /\ handles h0 qs0 !! k = Some (nextURI r).

(** What a call leaves behind: a query in some step when it returns, and
    in any case polls that follow the handles in order. *)
Definition call_post (h0 : string) (qs0 : list queryResponse) {A}
    (rows_of : A -> rows) (res : outcome A * world) : Prop :=
  match res with
  | (Returns a, w') => exists k', in_step h0 qs0 k' (rows_of a) w'
  | (_, w') => polled (trace w') `prefix_of` handles h0 qs0
  end.

End Callers.

(** ** The rest of the driver's surface *)

(** [conn.Prepare], [conn.Close], [conn.Begin]; [stmt.Close],
    [stmt.NumInput], [stmt.Exec]; [rows.Close]. A transaction and an
    [Exec] result are never made, so their type is [unit]. *)
Definition Prepare (c : conn) (query : string) : result stmt :=
  Ok {| stmt_conn := c; query := query |}.

Definition conn_Close (c : conn) : option error := None.

Definition Begin (c : conn) : result unit := Err ErrNotSupported.

Definition stmt_Close (s : stmt) : option error := None.

Definition NumInput (s : stmt) : Z := -1.

Section Surface.
Context `{GoLib}.

Definition Exec (s : stmt) (args : list driver_Value) : result unit :=
  Err ErrNotSupported.

Definition rows_Close (r : rows) : option error := None.

(** The rows value [Query] makes for the handle [u]. *)
Definition new_rows (c : conn) (u : string) : rows :=
  {| rows_conn := c; nextURI := u; fetched := false; rowindex := 0%nat;
     columns := []; types := []; data := [] |}.

(** A row converted column by column: [None] when a value is missing or
    a conversion fails. *)
Fixpoint convert_values (convs : list ValueConverter) (row : list value)
  : option (list driver_Value) :=
  match convs, row with
  | [], _ => Some []
  | c :: convs', raw :: row' =>
      match ConvertValue c raw with
      | Ok val => option_map (cons val) (convert_values convs' row')
      | Err _ => None
      end
  | _ :: _, [] => None
  end.

End Surface.

(** [Open] uses [http.DefaultClient], which is the transport of the
    model. *)
Definition Open `{GoURL} (name : string) : result conn := ClientOpen name.

(** The predicate [parseDataSource] hands to [strings.FieldsFunc]. *)
Definition is_slash (c : ascii) : bool := Ascii.eqb c "/".

(** A path segment: not empty, no slash. *)
Definition segment (s : string) : Prop :=
  s <> "" /\ has_byte "/" s = false.

(** The headers of a submission: user, catalog and schema always, source
    and session when they are set. *)
Definition submit_header (c : conn) : list (string * string) :=
  ([("X-Presto-User", user c); ("X-Presto-Catalog", catalog c);
    ("X-Presto-Schema", schema c)]
   ++ (if String.eqb (source c) "" then [] else [("X-Presto-Source", source c)])
   ++ (if String.eqb (session c) "" then [] else [("X-Presto-Session", session c)]))%list.

(** The error a poll ends with, if its answer is one: a transport error, a
    status other than 200, the decoder's error for a body it cannot decode
    ([io.EOF] for an empty one), FAILED, CANCELED. *)
Definition poll_error (o : do_outcome) : option error :=
  match o with
  | DoErr err => Some (Foreign from_Do err)
  | DoResp status body =>
      if negb (status =? 200) then Some ErrQueryFailed
      else match body with
           | inl err => Some (decode_error_value err)
           | inr q =>
               if String.eqb (State q) QueryStateFailed
               then Some (ServerError (Error q))
               else if String.eqb (State q) QueryStateCanceled
               then Some ErrQueryCanceled
               else None
           end
  end.

(** Where the error of a poll comes from: the request could not be
    built, or an answer of the transport stands for it. *)
Definition error_origin (w : world) (e : error) : Prop :=
  (exists msg, e = Foreign from_NewRequest msg)
  \/ (exists o, In o (script w) /\ poll_error o = Some e).

(** ** A stand-in for the Go libraries

    The driver is run on examples against these instances. They answer as
    the Go packages do on the inputs the examples use and are deliberately
    small elsewhere: every zone is looked up in a three-entry table, a time
    is kept as the text it was parsed from and its zone, and [%v] prints
    strings, booleans and nil only. *)

Module Demo.

Definition is_space (c : ascii) : bool :=
  Ascii.eqb c " " || Ascii.eqb c "009" || Ascii.eqb c "010"
  || Ascii.eqb c "011" || Ascii.eqb c "012" || Ascii.eqb c "013".

Fixpoint trim_left (s : string) : string :=
  match s with
  | String c t => if is_space c then trim_left t else s
  | EmptyString => s
  end.

Definition rev_string (s : string) : string :=
  string_of_list_ascii (rev (list_ascii_of_string s)).

Definition TrimSpace (s : string) : string :=
  rev_string (trim_left (rev_string (trim_left s))).

Definition LoadLocation (name : string) : string + string :=
  if String.eqb name "" || String.eqb name "UTC" then inr "UTC"
  else if String.eqb name "Europe/Berlin" then inr name
  else inl ("unknown time zone " ++ name).

Definition ParseInLocation (layout v loc : string)
  : string + (string * string) :=
  if (String.length v =? String.length layout)%nat then inr (v, loc)
  else inl ("parsing time " ++ v ++ " as " ++ layout).

#[global] Instance go_time : GoTime := {|
  time_Time := string * string;
  time_Location := string;
  time_UTC := "UTC";
  time_LoadLocation := LoadLocation;
  time_ParseInLocation := ParseInLocation
|}.

Definition print_v (v : value) : string :=
  match v with
  | VNil => "<nil>"
  | VString s => s
  | VBool true => "true"
  | VBool false => "false"
  | _ => "?"
  end.

#[global] Instance go_lib : GoLib := {|
  fmt_v := print_v;
  int64_unrepresentable := fun _ => - 2 ^ 63;
  strings_TrimSpace := TrimSpace;
  driver_String_ConvertValue := fun v =>
    match v with
    | VString s => Ok (DString s)
    | _ => Ok (DString (print_v v))
    end;
  driver_Bool_ConvertValue := fun v =>
    match v with
    | VBool b => Ok (DBool b)
    | _ => Err (Foreign from_driver "sql/driver: couldn't convert into type bool")
    end;
  http_NewRequest := fun _ _ => None
|}.

(** [net/url] on the data source names of the examples. *)
Definition dsn : string := "presto://alice@pdb:9000/sales/eu?user=bob&schema=us&schema=ca".

#[global] Instance go_url : GoURL := {|
  url_Parse := fun ds =>
    if String.eqb ds dsn
    then inr {| User := Some "alice"; Host := "pdb:9000";
                Path := "/sales/eu";
                RawQuery := "user=bob&schema=us&schema=ca" |}
    else inl "parse error";
  url_ParseQuery := fun q =>
    if String.eqb q "user=bob&schema=us&schema=ca"
    then {[ "user" := ["bob"]; "schema" := ["us"; "ca"] ]}
    else ∅
|}.

(** Handles and responses of a small query. *)
Definition U1 : string := "http://pdb:9000/v1/statement/q1/1".
Definition U2 : string := "http://pdb:9000/v1/statement/q1/2".
Definition U3 : string := "http://pdb:9000/v1/statement/q1/3".

Definition no_error : stmtError := {| ErrorMessage := ""; ErrorCode := 0 |}.

Definition poll (u : string) : event :=
  EvDo {| Method := "GET"; URL := u; Header := []; Body := "" |}.

Definition running (next : string) : queryResponse :=
  {| State := "RUNNING"; Error := no_error; NextURI := next;
     Columns := []; Data := [] |}.

Definition pdb : conn :=
  {| addr := "pdb:9000"; catalog := "sales"; schema := "eu";
     user := "alice"; source := ""; session := "" |}.

(** The rows value [Query] hands out for the handle [u]. *)
Definition fresh (u : string) : rows :=
  {| rows_conn := pdb; nextURI := u; fetched := false; rowindex := 0%nat;
     columns := []; types := []; data := [] |}.

Definition serving (answers : list do_outcome) : world :=
  {| script := answers; trace := [] |}.

Definition one : value := VFloat64 (S754_finite false 1 0).

Definition col (name ty : string) : queryColumn :=
  {| Name := name; Type_ := ty |}.

(** A page of data that still lacks its column list. *)
Definition q_rows_without_columns : queryResponse :=
  {| State := "RUNNING"; Error := no_error; NextURI := U2;
     Columns := []; Data := [[one]] |}.

(** A "no data yet" answer that already has the column list. *)
Definition q_columns_without_rows : queryResponse :=
  {| State := "RUNNING"; Error := no_error; NextURI := U2;
     Columns := [col "x" "bigint"]; Data := [] |}.

(** Last pages. *)
Definition q_x : queryResponse :=
  {| State := "FINISHED"; Error := no_error; NextURI := "";
     Columns := [col "x" "bigint"]; Data := [[one]] |}.

Definition q_y : queryResponse :=
  {| State := "FINISHED"; Error := no_error; NextURI := "";
     Columns := [col "y" "varchar"]; Data := [[VString "a"]] |}.

Definition q_empty : queryResponse :=
  {| State := "FINISHED"; Error := no_error; NextURI := "";
     Columns := [col "x" "bigint"]; Data := [] |}.

Definition syntax_error : stmtError :=
  {| ErrorMessage := "syntax error"; ErrorCode := 1 |}.

Definition q_failed : queryResponse :=
  {| State := "FAILED"; Error := syntax_error; NextURI := "";
     Columns := []; Data := [] |}.

(** An empty answer in a state the driver has no name for. *)
Definition q_finishing : queryResponse :=
  {| State := "FINISHING"; Error := no_error; NextURI := U2;
     Columns := []; Data := [] |}.

(** [net/url] on a data source name without user, port, schema and query
    string. *)
Definition plain_dsn : string := "presto://pdb/sales".

Definition plain_url : GoURL := {|
  url_Parse := fun ds =>
    if String.eqb ds plain_dsn
    then inr {| User := None; Host := "pdb"; Path := "/sales"; RawQuery := "" |}
    else inl "parse error";
  url_ParseQuery := fun _ => ∅
|}.

Definition select1 : stmt := {| stmt_conn := pdb; query := "SELECT 1" |}.

(** A statement on a connection that names its source, and the request
    its submission sends. *)
Definition tagged : stmt :=
  {| stmt_conn := {| addr := "pdb:9000"; catalog := "sales"; schema := "eu";
                     user := "alice"; source := "cli"; session := "" |};
     query := "SELECT 1" |}.

Definition tagged_post : http_Request :=
  {| Method := "POST"; URL := "http://pdb:9000/v1/statement";
     Header := [("X-Presto-User", "alice"); ("X-Presto-Catalog", "sales");
                ("X-Presto-Schema", "eu"); ("X-Presto-Source", "cli")];
     Body := "SELECT 1" |}.

End Demo.

(** * Properties *)

(** ** Package [strings] on examples *)

Example LastIndex_ex :
  strings.LastIndex "2020-01-01 00:00:00.000 UTC" " " = 23.
Proof. reflexivity. Qed.

Example LastIndex_none : strings.LastIndex "abc" " " = -1.
Proof. reflexivity. Qed.

Example FieldsFunc_ex :
  strings.FieldsFunc "/hive//web/" (Ascii.eqb "/") = ["hive"; "web"].
Proof. reflexivity. Qed.

Example Join_ex : strings.Join ["a"; "b"; "c"] "," = "a,b,c".
Proof. reflexivity. Qed.


(** ** The converters *)

Section ConverterFacts.
Context `{GoLib}.




(** The integer columns are given [bigIntConverter]. *)
Lemma integer_columns_use_bigIntConverter (ty : string) :
  In ty [BigInt; Integer; Smallint; Tinyint] ->
  column_converter ty = (of_valueConverterFunc bigIntConverter, true).
Proof.
  simpl. intros [<- | [<- | [<- | [<- | []]]]]; reflexivity.
Qed.

End ConverterFacts.


Example bigIntConverter_truncates :
  bigIntConverter (VFloat64 (S754_finite true 85 (-1))) = Ok (DInt64 (-42))
  /\ bigIntConverter (VFloat64 (S754_finite false 85 (-1))) = Ok (DInt64 42)
  /\ bigIntConverter (VFloat64 (S754_finite false 1 0)) = Ok (DInt64 1)
  /\ bigIntConverter VNil = Ok DNil.
Proof. repeat split. Qed.

(** ** Splitting on the last space *)


Lemma append_cons (c : ascii) (s t : string) :
  String c s ++ t = String c (s ++ t).
Proof. reflexivity. Qed.









Section TimestampWithTimezone.
Context `{GoLib}.


End TimestampWithTimezone.


Example timestampWithTimezoneConverter_examples :
  timestampWithTimezoneConverter (VString "2020-01-01 00:00:00.000 Europe/Berlin")
    = Ok (DTime ("2020-01-01 00:00:00.000", "Europe/Berlin"))
  /\ timestampWithTimezoneConverter (VString "2020-01-01 00:00:00.000 Mars")
     = Err (Foreign from_time "unknown time zone Mars")
  /\ timestampWithTimezoneConverter (VString "2020-01-01T00:00:00.000+01:00")
     = timestampConverter (VString "2020-01-01T00:00:00.000+01:00")
  /\ timestampWithTimezoneConverter VNil = Ok DNil.
Proof. repeat split. Qed.

(** ** The data source name *)

(** The loop that copies the query parameters into the configuration: a
    key of the query string gets the joined values, any other key keeps
    what it had. *)
Lemma merge_query_lookup (m : gmap string (list string))
    (c : gmap string string) (k : string) :
  map_fold (fun k v c => <[k := strings.Join v ","]> c) c m !! k =
    match m !! k with
    | Some v => Some (strings.Join v ",")
    | None => c !! k
    end.
Proof.
  revert k.
  apply (map_fold_weak_ind
           (fun (r : gmap string string) (m : gmap string (list string)) =>
              forall k, r !! k = match m !! k with
                                 | Some v => Some (strings.Join v ",")
                                 | None => c !! k
                                 end)).
  - intros k. now rewrite lookup_empty.
  - intros i x m' r Hi IH k. destruct (decide (i = k)) as [-> | Hne].
    + now rewrite !lookup_insert_eq.
    + rewrite !lookup_insert_ne by assumption. apply IH.
Qed.

Section DataSourceFacts.
Context `{GoURL}.

(** C10. When the data source name parses and its query string has a
    parameter [k] (user, addr, catalog and schema among them), the
    configuration holds that parameter's values for [k] (joined with commas
    when it is repeated), not the value taken from the authority or the
    path of the URL, nor a default. *)
Theorem parseDataSource_query_overrides
    (c : gmap string string) (ds : string) (u : url_URL)
    (k : string) (vs : list string) :
  url_Parse ds = inr u ->
  url_ParseQuery (RawQuery u) !! k = Some vs ->
  snd (parseDataSource c ds) = None
  /\ fst (parseDataSource c ds) !! k = Some (strings.Join vs ",").
Proof.
  intros Hu Hk. unfold parseDataSource. rewrite Hu. cbn [fst snd].
  split; [reflexivity |]. now rewrite merge_query_lookup, Hk.
Qed.

(** Without such a parameter the key keeps the value of the URL part or
    the default; here for the user. *)
Lemma parseDataSource_user_default
    (c : gmap string string) (ds : string) (u : url_URL) :
  url_Parse ds = inr u ->
  url_ParseQuery (RawQuery u) !! "user" = None ->
  fst (parseDataSource c ds) !! "user" =
    Some (match User u with Some name => name | None => DefaultUsername end).
Proof.
  intros Hu Hk. unfold parseDataSource. rewrite Hu. cbn [fst].
  rewrite merge_query_lookup, Hk.
  destruct (User u); destruct (strings.FieldsFunc _ _) as [| ? [| ? ?]];
    destruct (_ =? _); now simplify_map_eq.
Qed.

End DataSourceFacts.

Lemma parseDataSource_query_overrides_witness :
  (* alice@pdb:9000/sales/eu?user=bob&schema=us&schema=ca *)
  fst (parseDataSource ∅ Demo.dsn) !! "user" = Some "bob"
  /\ fst (parseDataSource ∅ Demo.dsn) !! "schema" = Some "us,ca".
Proof.
  split.
  - refine (proj2 (parseDataSource_query_overrides ∅ Demo.dsn _ "user" ["bob"]
                     eq_refl _)).
    vm_compute. reflexivity.
  - refine (proj2 (parseDataSource_query_overrides ∅ Demo.dsn _ "schema" ["us"; "ca"]
                     eq_refl _)).
    vm_compute. reflexivity.
Defined.

Example ClientOpen_example :
  ClientOpen Demo.dsn =
    Ok {| addr := "pdb:9000"; catalog := "sales"; schema := "us,ca";
          user := "bob"; source := ""; session := "" |}.
Proof. vm_compute. reflexivity. Qed.

(** ** Traces *)

Lemma polled_app (t1 t2 : list event) : polled (t1 ++ t2) = (polled t1 ++ polled t2)%list.
Proof.
  induction t1 as [| [req | ms | line] t1 IH]; cbn; try assumption; [reflexivity |].
  destruct (String.eqb (Method req) "GET"); cbn; now rewrite IH.
Qed.

Lemma sleeps_app (t1 t2 : list event) : sleeps (t1 ++ t2) = (sleeps t1 ++ sleeps t2)%list.
Proof.
  induction t1 as [| [req | ms | line] t1 IH]; cbn; try assumption; [reflexivity |].
  now rewrite IH.
Qed.

Lemma last_cons {A} (l : list A) (a d : A) :
  List.last (a :: l) d = List.last l a.
Proof.
  revert a d. induction l as [| b l IH]; intros a d; [reflexivity |].
  change (List.last (b :: l) d = List.last (b :: l) a). now rewrite !IH.
Qed.

Lemma backoff_trace_app (h : string) (qs1 qs2 : list queryResponse) :
  backoff_trace h (qs1 ++ qs2)
  = (backoff_trace h qs1 ++ backoff_trace (last_handle h qs1) qs2)%list.
Proof.
  revert h. induction qs1 as [| q qs1 IH]; intros h; [reflexivity |].
  cbn [backoff_trace app]. rewrite IH. unfold last_handle. cbn [map].
  now rewrite last_cons.
Qed.

(** The working states are neither FAILED nor CANCELED. *)
Lemma still_working_states (st : string) :
  still_working st = true <->
  In st [QueryStateQueued; QueryStatePlanning; QueryStateStarting; QueryStateRunning].
Proof.
  unfold still_working. rewrite !orb_true_iff, !String.eqb_eq. cbn. intuition.
Qed.

Lemma still_working_not_terminal (st : string) :
  still_working st = true ->
  String.eqb st QueryStateFailed = false
  /\ String.eqb st QueryStateCanceled = false
  /\ String.eqb st QueryStateFinished = false.
Proof.
  intros Hst. apply still_working_states in Hst.
  cbn in Hst. destruct Hst as [<- | [<- | [<- | [<- | []]]]]; now repeat split.
Qed.

Lemma finished_accepted (q : queryResponse) :
  State q = QueryStateFinished -> accepted q = true.
Proof. intros Hq. unfold accepted, not_ready. now rewrite Hq. Qed.

Lemma not_ready_not_accepted (q : queryResponse) :
  not_ready q = true -> accepted q = false.
Proof. intros Hq. unfold accepted. rewrite Hq. now rewrite !andb_false_r. Qed.

(** ** Query, waitForData and fetch, step by step *)

Section DriverFacts.
Context `{GoLib}.

Ltac go_run :=
  unfold mbind, M_bind, bind, mret, M_ret, ret, client_Do, time_Sleep,
    fmt_Println, panic, emit; cbn [script trace fst snd].

(** C6. A submission whose answer (status 200) decodes with state FAILED
    returns the server's error as it is; the only request made is the
    POST, no handle is polled and no rows value is handed out that a later
    poll could start from. *)
Theorem Query_state_FAILED (s : stmt) (w : world) (envelope : queryResponse)
    (rest : list do_outcome) :
  http_NewRequest "POST" (queryURL s) = None ->
  script w = DoResp 200 (inr envelope) :: rest ->
  State envelope = "FAILED" ->
  exists req,
    Query s [] w = (Returns (Err (ServerError (Error envelope))),
                    {| script := rest; trace := trace w ++ [EvDo req] |})
    /\ Method req = "POST" /\ URL req = queryURL s
    /\ polled (trace w ++ [EvDo req]) = polled (trace w)
    /\ sleeps (trace w ++ [EvDo req]) = sleeps (trace w).
Proof.
  intros Hreq Hw Hst. unfold Query, queryURL in *.
  change (0 <? Z.of_nat (length (@nil driver_Value))) with false.
  cbv iota zeta. rewrite Hreq. go_run. rewrite Hw.
  change (negb (200 =? 200)) with false.
  cbn [as_stmtResponse sState sError]. rewrite Hst.
  change (String.eqb "FAILED" "FAILED") with true. cbv iota.
  eexists. split; [reflexivity |]. cbn [Method URL].
  rewrite polled_app, sleeps_app. cbn. now rewrite !app_nil_r.
Qed.

Lemma waitForData_answer (r : rows) (w : world) (q : queryResponse)
    (rest : list do_outcome) :
  http_NewRequest "GET" (nextURI r) = None ->
  script w = answer q :: rest ->
  waitForData r w =
    (Returns
       (if String.eqb (State q) QueryStateFailed
        then (r, (None, false, Some (ServerError (Error q))))
        else if String.eqb (State q) QueryStateCanceled
        then (r, (None, false, Some ErrQueryCanceled))
        else if not_ready q
        then (set_nextURI r (NextURI q), (None, false, None))
        else (r, (Some q, true, None))),
     {| script := rest;
        trace := trace w ++ [EvDo (poll_request (nextURI r))] |}).
Proof.
  intros Hreq Hw. unfold waitForData, answer in *. rewrite Hreq. go_run.
  rewrite Hw. cbn [Z.eqb negb Pos.eqb]. fold (not_ready q).
  destruct (String.eqb (State q) QueryStateFailed); [reflexivity |].
  destruct (String.eqb (State q) QueryStateCanceled); [reflexivity |].
  now destruct (not_ready q).
Qed.

Lemma bind_columns_run (cols : list queryColumn) (w : world) :
  bind_columns cols w =
    (Returns (map Name cols, map converter_of cols),
     {| script := script w; trace := trace w ++ notices cols |}).
Proof.
  revert w. induction cols as [| col cols IH]; intros w.
  - cbn. go_run. rewrite app_nil_r. now destruct w.
  - cbn [bind_columns map notices flat_map]. unfold converter_of at 1.
    destruct (column_converter (Type_ col)) as [cv known]. cbn [fst snd].
    destruct known; go_run; rewrite IH; go_run; cbn [script trace].
    + reflexivity.
    + now rewrite <- app_assoc.
Qed.

(** With no answer left, [fetch] sends its request and waits for ever,
    unless the request cannot be built. *)
Lemma fetch_no_answers (r : rows) (w : world) :
  script w = [] ->
  fetch r w =
    match http_NewRequest "GET" (nextURI r) with
    | Some err => (Returns (r, Some (Foreign from_NewRequest err)), w)
    | None => (Blocks, {| script := [];
                          trace := trace w ++ [EvDo (poll_request (nextURI r))] |})
    end.
Proof.
  intros Hw. unfold fetch. rewrite Hw. cbn [length fetch_loop].
  unfold waitForData. destruct (http_NewRequest "GET" (nextURI r)); go_run.
  - reflexivity.
  - now rewrite Hw.
Qed.

(** One "no data yet" answer: the handle is replaced, [fetch] sleeps and
    goes round again. *)
Lemma fetch_not_ready_step (r : rows) (w : world) (q : queryResponse)
    (rest : list do_outcome) :
  http_NewRequest "GET" (nextURI r) = None ->
  script w = answer q :: rest ->
  not_ready q = true ->
  fetch r w =
    fetch (set_nextURI r (NextURI q))
          {| script := rest;
             trace := trace w ++ [EvDo (poll_request (nextURI r)); EvSleep 800] |}.
Proof.
  intros Hreq Hw Hq. unfold fetch at 1. rewrite Hw.
  cbn [length]. cbn [fetch_loop]. unfold mbind at 1, M_bind at 1, bind at 1.
  rewrite (waitForData_answer r w q rest Hreq Hw).
  destruct (still_working_not_terminal (State q)) as (-> & -> & _).
  { unfold not_ready in Hq. now apply andb_true_iff in Hq. }
  rewrite Hq. cbn [negb]. go_run. unfold fetch. cbn [script].
  now rewrite <- app_assoc.
Qed.

(** An accepted answer ends the loop with its page. *)
Lemma fetch_accepted (r : rows) (w : world) (q : queryResponse)
    (rest : list do_outcome) :
  http_NewRequest "GET" (nextURI r) = None ->
  script w = answer q :: rest ->
  accepted q = true ->
  fetch r w =
    (Returns (with_page r q, page_status q),
     {| script := rest;
        trace := trace w ++ EvDo (poll_request (nextURI r))
                 :: (if fetched r then [] else notices (Columns q)) |}).
Proof.
  intros Hreq Hw Hq. unfold fetch. rewrite Hw.
  cbn [length]. cbn [fetch_loop]. unfold mbind at 1, M_bind at 1, bind at 1.
  rewrite (waitForData_answer r w q rest Hreq Hw).
  unfold accepted in Hq. apply andb_true_iff in Hq as [Hq Hnr].
  apply andb_true_iff in Hq as [Hf Hc].
  apply negb_true_iff in Hf, Hc, Hnr. rewrite Hf, Hc, Hnr. cbn [negb].
  unfold with_page, page_status. cbn [fetched].
  destruct (fetched r) eqn:Hfetched; cbn [negb].
  - go_run. destruct (length (Data q) =? 0)%nat; go_run; reflexivity.
  - unfold mbind at 1, M_bind at 1, bind at 1.
    unfold mbind at 1, M_bind at 1, bind at 1.
    rewrite bind_columns_run. go_run.
    destruct (length (Data q) =? 0)%nat; go_run; now rewrite <- app_assoc.
Qed.

(** An answer that is no error was taken from the script. *)
Lemma waitForData_consumes (r : rows) (w : world) :
  match waitForData r w with
  | (Returns (_, (_, _, None)), w1) => length (script w) = S (length (script w1))
  | _ => True
  end.
Proof.
  unfold waitForData.
  destruct (http_NewRequest "GET" (nextURI r)); [exact I |].
  unfold mbind, M_bind, bind, mret, M_ret, ret, client_Do, emit.
  destruct (script w) as [| [err | st body] rest]; try exact I;
    repeat match goal with
      | |- context [if ?b then _ else _] => destruct b
      | |- context [match ?b with inl _ => _ | inr _ => _ end] => destruct b
      end;
    cbn; auto.
Qed.

(** More fuel than there are answers left changes nothing: [fetch] is the
    loop with any such amount. *)
Lemma fetch_loop_more_fuel (n : nat) :
  forall (m : nat) (r : rows) (w : world),
    (length (script w) < n)%nat -> (length (script w) < m)%nat ->
    fetch_loop n r w = fetch_loop m r w.
Proof.
  induction n as [| n IH]; intros [| m] r w Hn Hm; try lia.
  cbn [fetch_loop]. unfold mbind, M_bind, bind.
  pose proof (waitForData_consumes r w) as Hlen.
  destruct (waitForData r w) as [[[r1 [[qresp gotData] [e |]]] | |] w1];
    try reflexivity.
  destruct gotData; [reflexivity |]. cbn [negb].
  unfold time_Sleep, emit.
  apply IH; cbn [script]; lia.
Qed.

Lemma fetch_loop_fuel (fuel : nat) (r : rows) (w : world) :
  (length (script w) < fuel)%nat -> fetch_loop fuel r w = fetch r w.
Proof. intros Hlt. unfold fetch. apply fetch_loop_more_fuel; lia. Qed.

End DriverFacts.

(** ** The backoff loop *)

Section Backoff.
Context `{GoLib}.

Lemma set_nextURI_id (r : rows) : set_nextURI r (nextURI r) = r.
Proof. now destruct r. Qed.

Lemma world_eta (w : world) : {| script := script w; trace := trace w |} = w.
Proof. now destruct w. Qed.

(** Through a run of "no data yet" answers [fetch] polls, sleeps and moves
    to the handle of the answer just read; what it then does is what it
    does on the remaining answers. *)
Lemma fetch_skips_not_ready (qs : list queryResponse) :
  forall (r : rows) (w : world) (rest : list do_outcome),
    Forall (fun q => not_ready q = true) qs ->
    requests_ok (nextURI r) qs ->
    script w = (map answer qs ++ rest)%list ->
    fetch r w =
      fetch (set_nextURI r (last_handle (nextURI r) qs))
            {| script := rest;
               trace := trace w ++ backoff_trace (nextURI r) qs |}.
Proof.
  induction qs as [| q qs IH]; intros r w rest Hnr Hok Hw.
  - cbn in *. rewrite app_nil_r, set_nextURI_id, <- Hw. now rewrite world_eta.
  - apply Forall_cons in Hnr as [Hq Hnr]. destruct Hok as [Hreq Hok].
    rewrite (fetch_not_ready_step r w q (map answer qs ++ rest) Hreq Hw Hq).
    rewrite (IH (set_nextURI r (NextURI q))
                {| script := map answer qs ++ rest;
                   trace := trace w ++ [EvDo (poll_request (nextURI r)); EvSleep 800] |}
                rest Hnr Hok eq_refl).
    cbn [set_nextURI nextURI script trace rows_conn fetched rowindex columns types data].
    unfold last_handle. cbn [map backoff_trace]. rewrite last_cons.
    now rewrite <- app_assoc.
Qed.

(** C2. While the answers are "no data yet" answers (a working state and
    an empty page), [fetch] records each answer's handle, sleeps 800 ms and
    polls the handle it recorded last; with nothing but such answers it
    returns no page, no schema and no end of stream: it is still waiting
    for the answer to its last poll (or could not build that request), and
    the rows value differs from the initial one in its handle only. *)
Theorem fetch_backs_off_while_not_ready
    (qs : list queryResponse) (r : rows) (w : world) (rest : list do_outcome) :
  Forall (fun q => not_ready q = true) qs ->
  requests_ok (nextURI r) qs ->
  script w = (map answer qs ++ rest)%list ->
  let r_n := set_nextURI r (last_handle (nextURI r) qs) in
  let w_n := {| script := rest;
                trace := trace w ++ backoff_trace (nextURI r) qs |} in
  fetch r w = fetch r_n w_n
  /\ (rest = [] ->
      fetch r w =
        (Blocks, {| script := [];
                    trace := trace w_n ++ [EvDo (poll_request (nextURI r_n))] |})
      \/ exists msg,
          fetch r w = (Returns (r_n, Some (Foreign from_NewRequest msg)), w_n)).
Proof.
  intros Hnr Hok Hw r_n w_n.
  pose proof (fetch_skips_not_ready qs r w rest Hnr Hok Hw) as Hskip.
  fold r_n w_n in Hskip. split; [exact Hskip |].
  intros ->. rewrite Hskip, (fetch_no_answers r_n w_n eq_refl).
  destruct (http_NewRequest "GET" (nextURI r_n)) as [msg |]; eauto.
Qed.

(** [fetch] never sleeps for anything but 800 ms. *)
Lemma waitForData_sleeps (r : rows) (w : world) :
  sleeps (trace (snd (waitForData r w))) = sleeps (trace w).
Proof.
  unfold waitForData.
  destruct (http_NewRequest "GET" (nextURI r)); [reflexivity |].
  unfold mbind, M_bind, bind, mret, M_ret, ret, client_Do, emit.
  destruct (script w) as [| [err | st body] rest]; cbn [snd trace];
    repeat match goal with
      | |- context [if ?b then _ else _] => destruct b
      | |- context [match ?b with inl _ => _ | inr _ => _ end] => destruct b
      end;
    cbn [snd trace]; rewrite sleeps_app; cbn; now rewrite app_nil_r.
Qed.

Lemma sleeps_notices (cols : list queryColumn) : sleeps (notices cols) = [].
Proof.
  induction cols as [| col cols IH]; [reflexivity |].
  cbn [notices flat_map]. rewrite sleeps_app. fold (notices cols). rewrite IH.
  now destruct (snd (column_converter (Type_ col))).
Qed.

Lemma fetch_loop_sleeps (fuel : nat) :
  forall (r : rows) (w : world),
  exists k : nat,
    sleeps (trace (snd (fetch_loop fuel r w)))
    = (sleeps (trace w) ++ repeat backoff_ms k)%list.
Proof.
  induction fuel as [| fuel IH]; intros r w.
  - exists 0%nat. cbn. now rewrite app_nil_r.
  - cbn [fetch_loop]. unfold mbind at 1, M_bind at 1, bind at 1.
    pose proof (waitForData_sleeps r w) as Hwd.
    destruct (waitForData r w) as [[[r1 [[qresp gotData] err]] | |] w1];
      cbn [snd] in Hwd |- *; rewrite <- Hwd;
      try (exists 0%nat; cbn; now rewrite app_nil_r).
    destruct err as [e |]; [exists 0%nat; cbn; now rewrite app_nil_r |].
    destruct gotData; cbn [negb].
    + destruct qresp as [q |]; [| exists 0%nat; cbn; now rewrite app_nil_r].
      exists 0%nat. cbn [repeat]. rewrite app_nil_r. cbn [fetched].
      destruct (fetched r1); cbn [negb];
        unfold mbind, M_bind, bind, mret, M_ret, ret;
        rewrite ?bind_columns_run;
        destruct (length (Data q) =? 0)%nat; cbn [snd trace];
        rewrite ?sleeps_app, ?sleeps_notices, ?app_nil_r; reflexivity.
    + unfold mbind at 1, M_bind at 1, bind at 1, time_Sleep, emit.
      destruct (IH r1 {| script := script w1;
                         trace := trace w1 ++ [EvSleep backoff_ms] |}) as [k Hk].
      exists (S k). rewrite Hk. cbn [trace]. rewrite sleeps_app. cbn.
      now rewrite <- app_assoc.
Qed.

End Backoff.

Lemma fetch_backs_off_while_not_ready_witness :
  fetch (Demo.fresh Demo.U1)
        (Demo.serving [answer (Demo.running Demo.U2); answer (Demo.running Demo.U3)])
  = fetch (set_nextURI (Demo.fresh Demo.U1) Demo.U3)
          {| script := [];
             trace := [Demo.poll Demo.U1; EvSleep 800;
                       Demo.poll Demo.U2; EvSleep 800] |}.
Proof.
  exact (proj1 (fetch_backs_off_while_not_ready
                  [Demo.running Demo.U2; Demo.running Demo.U3]
                  (Demo.fresh Demo.U1)
                  (Demo.serving [answer (Demo.running Demo.U2);
                                 answer (Demo.running Demo.U3)])
                  []
                  ltac:(repeat constructor)
                  ltac:(repeat split)
                  eq_refl)).
Defined.

Example fetch_waits_for_the_third_answer :
  fetch (Demo.fresh Demo.U1)
        (Demo.serving [answer (Demo.running Demo.U2); answer (Demo.running Demo.U3)])
  = (Blocks,
     {| script := [];
        trace := [Demo.poll Demo.U1; EvSleep 800; Demo.poll Demo.U2; EvSleep 800;
                  Demo.poll Demo.U3] |}).
Proof. reflexivity. Qed.

(** Whatever the libraries, the connection, the rows value and the
    answers of the server, no call of [fetch] sleeps for an interval other
    than 800 ms: nothing a caller supplies reaches the interval. And an
    answer that has no rows and is not FINISHED ends the waiting all the
    same when its state is none of the four working states: here [fetch]
    returns the end of the stream for an empty FINISHING answer. *)
Lemma backoff_interval_not_configurable :
  (~ exists (T : GoTime) (L : GoLib) (r : rows) (w : world) (ms : Z),
       In ms (sleeps (trace (snd (fetch r w))))
       /\ ~ In ms (sleeps (trace w))
       /\ ms <> 800)
  /\ (Data Demo.q_finishing = []
      /\ State Demo.q_finishing <> QueryStateFinished
      /\ fst (fetch (Demo.fresh Demo.U1) (Demo.serving [answer Demo.q_finishing]))
         = Returns (with_page (Demo.fresh Demo.U1) Demo.q_finishing, Some io_EOF)).
Proof.
  split.
  - intros (T & L & r & w & ms & Hin & Hold & Hne).
    unfold fetch in Hin.
    destruct (fetch_loop_sleeps (S (length (script w))) r w) as [k Hk].
    rewrite Hk in Hin. apply in_app_or in Hin as [Hin | Hin]; [tauto |].
    apply repeat_spec in Hin. unfold backoff_ms in Hin. lia.
  - repeat split. discriminate.
Qed.

(** ** Pages and the schema *)

Section Pages.
Context `{GoLib}.

Lemma requests_ok_snoc (h : string) (qs : list queryResponse) (q : queryResponse) :
  requests_ok h (qs ++ [q]) <->
  requests_ok h qs /\ http_NewRequest "GET" (last_handle h qs) = None.
Proof.
  revert h. induction qs as [| q' qs IH]; intros h.
  - cbn. tauto.
  - cbn [app requests_ok]. rewrite IH. unfold last_handle. cbn [map].
    rewrite last_cons. tauto.
Qed.

Lemma with_page_set_nextURI (r : rows) (u : string) (q : queryResponse) :
  with_page (set_nextURI r u) q = with_page r q.
Proof. reflexivity. Qed.

(** After any run of "no data yet" answers, the first accepted answer is
    the page [fetch] returns with. *)
Lemma fetch_delivers (qs : list queryResponse) (q : queryResponse)
    (r : rows) (w : world) (rest : list do_outcome) :
  Forall (fun q => not_ready q = true) qs ->
  accepted q = true ->
  requests_ok (nextURI r) (qs ++ [q]) ->
  script w = (map answer qs ++ answer q :: rest)%list ->
  fetch r w =
    (Returns (with_page r q, page_status q),
     {| script := rest;
        trace := (trace w ++ backoff_trace (nextURI r) qs)
                 ++ EvDo (poll_request (last_handle (nextURI r) qs))
                 :: (if fetched r then [] else notices (Columns q)) |}).
Proof.
  intros Hnr Hq Hok Hw. apply requests_ok_snoc in Hok as [Hok Hlast].
  rewrite (fetch_skips_not_ready qs r w (answer q :: rest) Hnr Hok Hw).
  now rewrite (fetch_accepted (set_nextURI r (last_handle (nextURI r) qs))
                 {| script := answer q :: rest;
                    trace := trace w ++ backoff_trace (nextURI r) qs |}
                 q rest Hlast eq_refl Hq).
Qed.

Lemma waitForData_rows (r : rows) (w : world) :
  match fst (waitForData r w) with
  | Returns (r1, _) => exists u, r1 = set_nextURI r u
  | _ => True
  end.
Proof.
  unfold waitForData.
  destruct (http_NewRequest "GET" (nextURI r)).
  { cbn. exists (nextURI r). now rewrite set_nextURI_id. }
  unfold mbind, M_bind, bind, mret, M_ret, ret, client_Do, emit.
  destruct (script w) as [| [err | st body] rest]; cbn [fst]; [exact I | |];
    repeat match goal with
      | |- context [if ?b then _ else _] => destruct b
      | |- context [match ?b with inl _ => _ | inr _ => _ end] => destruct b
      end;
    cbn [fst]; eauto; exists (nextURI r); now rewrite set_nextURI_id.
Qed.

(** Once something was fetched, no run of [fetch] touches the names or the
    converters, whatever the server answers. *)
Lemma fetch_loop_keeps_schema (fuel : nat) :
  forall (r r' : rows) (w w' : world) (e : option error),
    fetched r = true ->
    fetch_loop fuel r w = (Returns (r', e), w') ->
    fetched r' = true /\ columns r' = columns r /\ types r' = types r.
Proof.
  induction fuel as [| fuel IH]; intros r r' w w' e Hf Hrun; [discriminate |].
  cbn [fetch_loop] in Hrun. unfold mbind at 1, M_bind at 1, bind at 1 in Hrun.
  pose proof (waitForData_rows r w) as Hrows.
  destruct (waitForData r w) as [[[r1 [[qresp gotData] err]] | |] w1];
    try discriminate.
  cbn [fst] in Hrows. destruct Hrows as [u ->].
  destruct err as [e1 |].
  { injection Hrun as <- <- <-. now cbn. }
  destruct gotData; cbn [negb] in Hrun.
  - destruct qresp as [q |]; [| discriminate].
    cbn [fetched set_nextURI] in Hrun. rewrite Hf in Hrun. cbn [negb] in Hrun.
    unfold mbind, M_bind, bind, mret, M_ret, ret in Hrun.
    destruct (length (Data q) =? 0)%nat; injection Hrun as <- <- <-; now cbn.
  - unfold mbind at 1, M_bind at 1, bind at 1, time_Sleep in Hrun.
    apply IH in Hrun; [| exact Hf]. exact Hrun.
Qed.

Lemma convert_row_world (convs : list ValueConverter) :
  forall (i : nat) (r : rows) (dest : list driver_Value) (w : world),
    snd (convert_row i convs r dest w) = w.
Proof.
  induction convs as [| v convs IH]; intros i r dest w; [reflexivity |].
  cbn [convert_row]. destruct (data r !! rowindex r) as [row |]; [| reflexivity].
  destruct (row !! i) as [raw |]; [| reflexivity].
  destruct (ConvertValue v raw); [| reflexivity].
  destruct (i <? length dest)%nat; [apply IH | reflexivity].
Qed.

Lemma Next_convert_rows (r r' : rows) (dest d' : list driver_Value)
    (e : option error) (w w' : world) :
  Next_convert r dest w = (Returns (r', d', e), w') ->
  w' = w /\ (r' = r \/ r' = set_rowindex r (S (rowindex r))).
Proof.
  unfold Next_convert, mbind, M_bind, bind, mret, M_ret, ret.
  pose proof (convert_row_world (types r) 0 r dest w) as Hw.
  destruct (convert_row 0 (types r) r dest w) as [[[d1 [e1 |]] | |] w1];
    cbn [snd] in Hw; subst w1; intros Hrun; try discriminate;
    injection Hrun as <- <- <- <-; auto.
Qed.

Lemma Next_keeps_schema (r r' : rows) (dest d' : list driver_Value)
    (e : option error) (w w' : world) :
  fetched r = true ->
  Next r dest w = (Returns (r', d', e), w') ->
  fetched r' = true /\ columns r' = columns r /\ types r' = types r.
Proof.
  intros Hf. unfold Next.
  assert (Hconv : forall r0 w0, fetched r0 = true ->
            Next_convert r0 dest w0 = (Returns (r', d', e), w') ->
            fetched r' = true /\ columns r' = columns r0 /\ types r' = types r0).
  { intros r0 w0 Hf0 Hrun. apply Next_convert_rows in Hrun as [_ [-> | ->]]; now cbn. }
  destruct (negb (fetched r) || (length (data r) <=? rowindex r)%nat);
    [| now apply Hconv].
  destruct (String.eqb (nextURI r) "").
  { intros Hrun. injection Hrun as <- <- <- <-. now cbn. }
  unfold mbind at 1, M_bind at 1, bind at 1.
  destruct (fetch r w) as [[[r1 [e1 |]] | |] w1] eqn:Hfetch; try discriminate;
    apply fetch_loop_keeps_schema in Hfetch as (Hf1 & Hc1 & Ht1); try exact Hf.
  - intros Hrun. injection Hrun as <- <- <- <-. auto.
  - intros Hrun. apply Hconv in Hrun; [| exact Hf1].
    destruct Hrun as (? & -> & ->). auto.
Qed.

End Pages.

Section PollOutcomes.
Context `{GoLib}.

(** Only one answer makes a poll end with [io.EOF]: status 200 with a body
    the decoder finds empty. *)
Lemma poll_error_EOF (o : do_outcome) :
  poll_error o = Some io_EOF -> o = DoResp 200 (inl decode_EOF).
Proof.
  unfold poll_error. destruct o as [err | st body]; [discriminate |].
  destruct (st =? 200) eqn:Hst; cbn [negb]; [| discriminate].
  apply Z.eqb_eq in Hst as ->.
  destruct body as [[| msg] | q]; cbn [decode_error_value];
    [reflexivity | discriminate |].
  destruct (String.eqb (State q) QueryStateFailed); [discriminate |].
  destruct (String.eqb (State q) QueryStateCanceled); discriminate.
Qed.

(** [waitForData] returns an error and the rows as they were, or "no data
    yet" and the rows with a new handle, or an accepted answer of the
    transport and the rows as they were; it does not panic. *)
Lemma waitForData_shape (r : rows) (w : world) :
  match fst (waitForData r w) with
  | Returns (r1, (qresp, gotData, err)) =>
      (exists e, err = Some e /\ gotData = false /\ r1 = r /\ error_origin w e)
      \/ (err = None /\ gotData = false /\ exists u, r1 = set_nextURI r u)
      \/ (err = None /\ gotData = true /\ r1 = r
          /\ exists q, qresp = Some q /\ In (answer q) (script w)
                       /\ accepted q = true)
  | Panics => False
  | Blocks => True
  end.
Proof.
  unfold waitForData, error_origin.
  destruct (http_NewRequest "GET" (nextURI r)).
  { cbn. left. eexists. repeat split. left. eauto. }
  unfold mbind, M_bind, bind, mret, M_ret, ret, client_Do, emit.
  destruct (script w) as [| o rest] eqn:Hw; cbn [fst]; [exact I |].
  assert (Herr : forall e, poll_error o = Some e ->
            (exists e0, Some e = Some e0 /\ false = false /\ r = r
                        /\ ((exists msg, e0 = Foreign from_NewRequest msg)
                            \/ (exists o0, In o0 (o :: rest) /\ poll_error o0 = Some e0)))).
  { intros e He. exists e. repeat split. right. exists o. split; [now left | exact He]. }
  destruct o as [err | st body]; cbn [fst]; [left; now apply Herr |].
  unfold poll_error in Herr.
  destruct (st =? 200) eqn:Hst; cbn [negb fst] in *; [| left; now apply Herr].
  apply Z.eqb_eq in Hst as ->.
  destruct body as [err | q]; cbn [fst]; [left; now apply Herr |].
  destruct (String.eqb (State q) QueryStateFailed) eqn:Hfailed; cbn [fst];
    [left; now apply Herr |].
  destruct (String.eqb (State q) QueryStateCanceled) eqn:Hcanceled; cbn [fst];
    [left; now apply Herr |].
  destruct (still_working (State q) && (length (Data q) =? 0)%nat) eqn:Hnr; cbn [fst].
  - right. left. eauto.
  - right. right. repeat split. exists q. split; [reflexivity |].
    split; [now left |].
    unfold accepted, not_ready. now rewrite Hfailed, Hcanceled, Hnr.
Qed.

(** [waitForData] takes answers from the front of the script only. *)
Lemma waitForData_script (r : rows) (w : world) (o : do_outcome) :
  In o (script (snd (waitForData r w))) -> In o (script w).
Proof.
  unfold waitForData.
  destruct (http_NewRequest "GET" (nextURI r)); [trivial |].
  unfold mbind, M_bind, bind, mret, M_ret, ret, client_Do, emit.
  destruct (script w) as [| [err | st body] rest]; cbn [snd script]; [trivial | |];
    repeat match goal with
      | |- context [if ?b then _ else _] => destruct b
      | |- context [match ?b with inl _ => _ | inr _ => _ end] => destruct b
      end;
    cbn [snd script]; intros Hin; now right.
Qed.

(** [fetch] returns an error of a poll and rows that differ from the ones it
    got in the handle at most, or the page of an accepted answer of the
    transport; it does not panic. *)
Lemma fetch_loop_shape (fuel : nat) :
  forall (r : rows) (w : world),
    match fst (fetch_loop fuel r w) with
    | Returns (r', err) =>
        (exists e u, err = Some e /\ r' = set_nextURI r u /\ error_origin w e)
        \/ (exists q, r' = with_page r q /\ err = page_status q
                      /\ In (answer q) (script w) /\ accepted q = true)
    | Panics => False
    | Blocks => True
    end.
Proof.
  induction fuel as [| fuel IH]; intros r w; [exact I |].
  cbn [fetch_loop]. unfold mbind at 1, M_bind at 1, bind at 1.
  pose proof (waitForData_shape r w) as Hwd.
  pose proof (waitForData_script r w) as Hscript.
  destruct (waitForData r w) as [[[r1 [[qresp gotData] err]] | |] w1];
    cbn [fst snd] in Hwd, Hscript |- *; try assumption.
  destruct Hwd as [(e & -> & -> & -> & Horigin)
                  | [(-> & -> & u & ->) | (-> & -> & -> & q & -> & Hin & Hacc)]].
  - cbn. left. exists e, (nextURI r). now rewrite set_nextURI_id.
  - cbn [negb]. unfold mbind at 1, M_bind at 1, bind at 1, time_Sleep.
    specialize (IH (set_nextURI r u)
                   (emit (EvSleep backoff_ms) w1)).
    destruct (fetch_loop fuel (set_nextURI r u) (emit (EvSleep backoff_ms) w1))
      as [[[r' err] | |] w2]; cbn [fst] in IH |- *; try exact IH.
    destruct IH as [(e & v & -> & -> & Horigin) | (q & -> & -> & Hin & Hacc)].
    + left. exists e, v. repeat split.
      destruct Horigin as [Hreq | (o & Hin & Ho)]; [now left |].
      right. exists o. split; [apply Hscript; exact Hin | exact Ho].
    + right. exists q. repeat split; [| exact Hacc].
      apply Hscript. exact Hin.
  - cbn [negb fetched]. unfold mbind, M_bind, bind, mret, M_ret, ret.
    destruct (fetched r) eqn:Hf; cbn [negb].
    + destruct (length (Data q) =? 0)%nat eqn:Hd; cbn [fst]; right; exists q;
        unfold with_page, page_status; rewrite ?Hf, ?Hd; now repeat split.
    + rewrite bind_columns_run.
      destruct (length (Data q) =? 0)%nat eqn:Hd; cbn [fst]; right; exists q;
        unfold with_page, page_status; rewrite ?Hf, ?Hd; now repeat split.
Qed.

End PollOutcomes.

Section Schema.
Context `{GoLib}.

(** C3 (as the code has it). Names and converters are written once: by
    the [fetch] that returns the first accepted answer (after any number of
    "no data yet" answers, whose columns are not looked at), from that
    answer's [columns] field, empty or not; once that has happened no
    [fetch] and no [Next] changes them, whatever the later answers
    carry. *)
Theorem schema_bound_once (r : rows) (w : world) :
  (fetched r = false ->
   forall (qs : list queryResponse) (q : queryResponse) (rest : list do_outcome),
     Forall (fun q => not_ready q = true) qs ->
     accepted q = true ->
     requests_ok (nextURI r) (qs ++ [q]) ->
     script w = (map answer qs ++ answer q :: rest)%list ->
     exists r' w',
       fetch r w = (Returns (r', page_status q), w')
       /\ fetched r' = true
       /\ columns r' = map Name (Columns q)
       /\ types r' = map converter_of (Columns q))
  /\ (fetched r = true ->
      (forall r' e w',
          fetch r w = (Returns (r', e), w') ->
          fetched r' = true /\ columns r' = columns r /\ types r' = types r)
      /\ (forall dest r' d' e w',
             Next r dest w = (Returns (r', d', e), w') ->
             fetched r' = true /\ columns r' = columns r /\ types r' = types r)).
Proof.
  split.
  - intros Hf qs q rest Hnr Hq Hok Hw.
    rewrite (fetch_delivers qs q r w rest Hnr Hq Hok Hw).
    do 2 eexists. split; [reflexivity |]. unfold with_page. cbn.
    now rewrite Hf.
  - intros Hf. split.
    + intros r' e w' Hrun. unfold fetch in Hrun.
      now apply fetch_loop_keeps_schema in Hrun.
    + intros dest r' d' e w' Hrun. now apply Next_keeps_schema in Hrun.
Qed.


(** C9. Nothing was fetched yet and the first accepted answer is FINISHED
    with no rows: [Columns] returns the empty list, although the [fetch] it
    ran has bound the names of that answer's columns (a second call returns
    them). *)
Theorem Columns_empty_for_empty_result
    (qs : list queryResponse) (q : queryResponse) (r : rows) (w : world)
    (rest : list do_outcome) :
  fetched r = false ->
  Forall (fun q => not_ready q = true) qs ->
  State q = QueryStateFinished ->
  Data q = [] ->
  requests_ok (nextURI r) (qs ++ [q]) ->
  script w = (map answer qs ++ answer q :: rest)%list ->
  exists r' w',
    rows_Columns r w = (Returns (r', []), w')
    /\ fetched r' = true
    /\ columns r' = map Name (Columns q)
    /\ (forall w2, rows_Columns r' w2 = (Returns (r', map Name (Columns q)), w2)).
Proof.
  intros Hf Hnr Hst Hdata Hok Hw.
  exists (with_page r q). eexists. repeat split.
  - unfold rows_Columns. rewrite Hf. cbn [negb].
    unfold mbind at 1, M_bind at 1, bind at 1.
    rewrite (fetch_delivers qs q r w rest Hnr (finished_accepted q Hst) Hok Hw).
    unfold page_status. rewrite Hdata. reflexivity.
  - unfold with_page. cbn. now rewrite Hf.
  - intros w2. unfold rows_Columns, with_page. cbn [fetched negb columns].
    now rewrite Hf.
Qed.

End Schema.

Lemma schema_bound_once_witness :
  (exists r' w',
      fetch (Demo.fresh Demo.U1)
            (Demo.serving [answer Demo.q_columns_without_rows; answer Demo.q_y])
      = (Returns (r', None), w')
      /\ fetched r' = true
      /\ columns r' = ["y"]
      /\ types r' = [of_valueConverterFunc stringConverter])
  /\ (forall r' e w',
         fetch (with_page (Demo.fresh Demo.U1) Demo.q_rows_without_columns)
               (Demo.serving [answer Demo.q_x])
         = (Returns (r', e), w') ->
         fetched r' = true /\ columns r' = [] /\ types r' = []).
Proof.
  split.
  - exact (proj1 (schema_bound_once (Demo.fresh Demo.U1)
                    (Demo.serving [answer Demo.q_columns_without_rows;
                                   answer Demo.q_y]))
             eq_refl [Demo.q_columns_without_rows] Demo.q_y []
             ltac:(repeat constructor) eq_refl ltac:(repeat split) eq_refl).
  - exact (proj1 (proj2 (schema_bound_once
                           (with_page (Demo.fresh Demo.U1) Demo.q_rows_without_columns)
                           (Demo.serving [answer Demo.q_x]))
                    eq_refl)).
Defined.

(** The first page has rows and no column list, the second has the column
    list: a caller that asks for the columns and reads on ends with no
    column at all, although an answer carried the column [x]. And a column
    list on a "no data yet" answer is passed over for the one of the first
    page. *)
Lemma schema_not_from_first_columns :
  (exists r_end w_end,
      run_calls [CallColumns; CallNext []; CallNext []] (Demo.fresh Demo.U1)
                (Demo.serving [answer Demo.q_rows_without_columns; answer Demo.q_x])
      = (Returns r_end, w_end)
      /\ script w_end = []
      /\ first_with_columns [Demo.q_rows_without_columns; Demo.q_x] = Some Demo.q_x
      /\ map Name (Columns Demo.q_x) = ["x"]
      /\ columns r_end = []
      /\ types r_end = [])
  /\ (exists r_end w_end,
         run_calls [CallColumns] (Demo.fresh Demo.U1)
                   (Demo.serving [answer Demo.q_columns_without_rows; answer Demo.q_y])
         = (Returns r_end, w_end)
         /\ first_with_columns [Demo.q_columns_without_rows; Demo.q_y]
            = Some Demo.q_columns_without_rows
         /\ map Name (Columns Demo.q_columns_without_rows) = ["x"]
         /\ columns r_end = ["y"]).
Proof.
  split; do 2 eexists; (split; [vm_compute; reflexivity |]); repeat split.
Qed.



Lemma Columns_empty_for_empty_result_witness :
  exists r' w',
    rows_Columns (Demo.fresh Demo.U1) (Demo.serving [answer Demo.q_empty])
    = (Returns (r', []), w')
    /\ fetched r' = true
    /\ columns r' = ["x"]
    /\ (forall w2, rows_Columns r' w2 = (Returns (r', ["x"]), w2)).
Proof.
  exact (Columns_empty_for_empty_result [] Demo.q_empty (Demo.fresh Demo.U1)
           (Demo.serving [answer Demo.q_empty]) []
           eq_refl ltac:(constructor) eq_refl eq_refl ltac:(repeat split) eq_refl).
Defined.

(** Scenario A of the specification: one row, then the end of the
    stream. *)
Example scenario_A :
  exists r1 w1 r2 w2,
    Next (Demo.fresh Demo.U1) [DNil] (Demo.serving [answer Demo.q_x])
    = (Returns (r1, [DInt64 1], None), w1)
    /\ Next r1 [DInt64 1] w1 = (Returns (r2, [DInt64 1], Some io_EOF), w2)
    /\ polled (trace w2) = [Demo.U1].
Proof. do 4 eexists. repeat split. Qed.

(** ** Which handles are polled *)

Lemma lookup_map {A B} (f : A -> B) (l : list A) (i : nat) :
  map f l !! i = option_map f (l !! i).
Proof.
  revert i. induction l as [| a l IH]; intros [| i]; cbn; auto.
Qed.

Section HandlesOnce.
Context `{GoLib}.
Variables (h0 : string) (qs0 : list queryResponse).
Hypothesis requests_fine :
  forall u, In u (handles h0 qs0) -> http_NewRequest "GET" u = None.
Hypothesis answers_fine : Forall no_failure qs0.

Lemma polled_notices (cols : list queryColumn) : polled (notices cols) = [].
Proof.
  induction cols as [| c cols IH]; [reflexivity |].
  cbn [notices flat_map]. rewrite polled_app. fold (notices cols). rewrite IH.
  now destruct (snd (column_converter (Type_ c))).
Qed.

Lemma in_step_request (k : nat) (r : rows) (w : world) :
  in_step h0 qs0 k r w -> http_NewRequest "GET" (nextURI r) = None.
Proof.
  intros (_ & _ & Hk). apply requests_fine, list_elem_of_In.
  apply list_elem_of_lookup. eauto.
Qed.

Lemma in_step_prefix (k : nat) (r : rows) (w : world) :
  in_step h0 qs0 k r w -> polled (trace w) `prefix_of` handles h0 qs0.
Proof.
  intros (_ & -> & _). exists (drop k (handles h0 qs0)).
  now rewrite take_drop.
Qed.

(** The next poll asks for the handle in hand, which is handle number
    [k]. *)
Lemma in_step_poll (k : nat) (r : rows) (w : world) (more : list event) :
  in_step h0 qs0 k r w -> polled more = [] ->
  polled (trace w ++ EvDo (poll_request (nextURI r)) :: more)
  = take (S k) (handles h0 qs0).
Proof.
  intros (_ & Hp & Hk) Hmore. rewrite polled_app, Hp.
  change (polled (EvDo (poll_request (nextURI r)) :: more))
    with (nextURI r :: polled more).
  rewrite Hmore. symmetry. now apply take_S_r.
Qed.

Lemma fetch_in_step (m : nat) :
  forall (k : nat) (r : rows) (w : world),
    (length qs0 - k)%nat = m ->
    in_step h0 qs0 k r w ->
    call_post h0 qs0 fst (fetch r w).
Proof.
  induction m as [| m IH]; intros k r w Hm Hstep;
    pose proof (in_step_request k r w Hstep) as Hreq;
    pose proof Hstep as (Hw & Hp & Hk);
    destruct (qs0 !! k) as [q |] eqn:Hq.
  - apply lookup_lt_Some in Hq. lia.
  - apply lookup_ge_None in Hq. rewrite drop_ge in Hw by assumption.
    rewrite (fetch_no_answers r w Hw), Hreq. cbn.
    rewrite (in_step_poll k r w [] Hstep eq_refl).
    exists (drop (S k) (handles h0 qs0)). now rewrite take_drop.
  - pose proof (drop_S qs0 q k Hq) as Hdrop. rewrite Hdrop in Hw.
    cbn [map] in Hw.
    assert (Hnext : handles h0 qs0 !! S k = Some (NextURI q)).
    { change (map NextURI qs0 !! k = Some (NextURI q)).
      now rewrite lookup_map, Hq. }
    destruct (not_ready q) eqn:Hnr.
    + rewrite (fetch_not_ready_step r w q _ Hreq Hw Hnr).
      apply (IH (S k)); [apply lookup_lt_Some in Hq; lia |].
      repeat split; cbn [script trace nextURI set_nextURI]; auto.
      now apply (in_step_poll k r w [EvSleep 800]).
    + assert (Hacc : accepted q = true).
      { unfold accepted. rewrite Hnr.
        destruct (proj1 (Forall_forall _ _) answers_fine q) as [-> ->];
          [| reflexivity].
        apply list_elem_of_lookup. eauto. }
      rewrite (fetch_accepted r w q _ Hreq Hw Hacc). cbn.
      exists (S k). repeat split; cbn [script trace nextURI with_page]; auto.
      apply (in_step_poll k r w); [exact Hstep |].
      destruct (fetched r); [reflexivity | apply polled_notices].
  - apply lookup_ge_None in Hq. lia.
Qed.

Lemma Next_convert_world (r : rows) (dest : list driver_Value) (w : world) :
  snd (Next_convert r dest w) = w.
Proof.
  unfold Next_convert, mbind, M_bind, bind, mret, M_ret, ret.
  pose proof (convert_row_world (types r) 0 r dest w) as Hw.
  now destruct (convert_row 0 (types r) r dest w) as [[[d1 [e1 |]] | |] w1];
    cbn [snd] in Hw |- *.
Qed.

Lemma Next_convert_in_step (k : nat) (r : rows) (dest : list driver_Value)
    (w : world) :
  in_step h0 qs0 k r w ->
  call_post h0 qs0 (fun a => fst (fst a)) (Next_convert r dest w).
Proof.
  intros Hstep. pose proof (Next_convert_world r dest w) as Hw.
  destruct (Next_convert r dest w) as [[[[r' d'] e] | |] w'] eqn:Hrun;
    cbn [snd] in Hw; subst w'; cbn; try now apply (in_step_prefix k r).
  apply Next_convert_rows in Hrun as [_ [-> | ->]]; now exists k.
Qed.

Lemma rows_Columns_in_step (k : nat) (r : rows) (w : world) :
  in_step h0 qs0 k r w -> call_post h0 qs0 fst (rows_Columns r w).
Proof.
  intros Hstep. unfold rows_Columns.
  destruct (fetched r); cbn [negb]; [now exists k |].
  unfold mbind at 1, M_bind at 1, bind at 1.
  pose proof (fetch_in_step _ k r w eq_refl Hstep) as Hpost.
  destruct (fetch r w) as [[[r1 [e1 |]] | |] w1]; exact Hpost.
Qed.

Lemma Next_in_step (k : nat) (r : rows) (dest : list driver_Value) (w : world) :
  in_step h0 qs0 k r w -> call_post h0 qs0 (fun a => fst (fst a)) (Next r dest w).
Proof.
  intros Hstep. unfold Next.
  destruct (negb (fetched r) || (length (data r) <=? rowindex r)%nat);
    [| now apply (Next_convert_in_step k)].
  destruct (String.eqb (nextURI r) ""); [now exists k |].
  unfold mbind at 1, M_bind at 1, bind at 1.
  pose proof (fetch_in_step _ k r w eq_refl Hstep) as Hpost.
  destruct (fetch r w) as [[[r1 [e1 |]] | |] w1]; try exact Hpost.
  cbn in Hpost. destruct Hpost as [k1 Hk1]. now apply (Next_convert_in_step k1).
Qed.

Lemma run_calls_in_step (cs : list call) :
  forall (k : nat) (r : rows) (w : world),
    in_step h0 qs0 k r w ->
    polled (trace (snd (run_calls cs r w))) `prefix_of` handles h0 qs0.
Proof.
  induction cs as [| [| dest] cs IH]; intros k r w Hstep.
  - now apply (in_step_prefix k r).
  - cbn [run_calls]. unfold mbind at 1, M_bind at 1, bind at 1.
    pose proof (rows_Columns_in_step k r w Hstep) as Hpost.
    destruct (rows_Columns r w) as [[[r1 names] | |] w1]; try exact Hpost.
    destruct Hpost as [k1 Hk1]. now apply (IH k1).
  - cbn [run_calls]. unfold mbind at 1, M_bind at 1, bind at 1.
    pose proof (Next_in_step k r dest w Hstep) as Hpost.
    destruct (Next r dest w) as [[[[r1 d1] e1] | |] w1]; try exact Hpost.
    destruct Hpost as [k1 Hk1]. now apply (IH k1).
Qed.

End HandlesOnce.

Section Polls.
Context `{GoLib}.

(** C5 (as the code has it). While no poll ends in an error (every
    answer is a decodable 200 answer that reports neither FAILED nor
    CANCELED, every request can be built), whatever the caller does with
    the rows value, in whatever order: the polls ask for the handles in the
    order the server supplied them, each poll for the handle of the answer
    before it; so no handle is polled twice when the server supplies no
    handle twice. *)
Theorem handles_polled_in_order
    (cs : list call) (r : rows) (w : world) (qs : list queryResponse) :
  polled (trace w) = [] ->
  script w = map answer qs ->
  Forall no_failure qs ->
  (forall u, In u (handles (nextURI r) qs) -> http_NewRequest "GET" u = None) ->
  polled (trace (snd (run_calls cs r w))) `prefix_of` handles (nextURI r) qs
  /\ (NoDup (handles (nextURI r) qs) ->
      NoDup (polled (trace (snd (run_calls cs r w))))).
Proof.
  intros Hp Hw Hnf Hok.
  assert (Hpre : polled (trace (snd (run_calls cs r w)))
                 `prefix_of` handles (nextURI r) qs).
  { apply (run_calls_in_step (nextURI r) qs Hok Hnf cs 0%nat r w).
    repeat split; [now rewrite drop_0 | now rewrite Hp]. }
  split; [exact Hpre |].
  destruct Hpre as [later Hlater]. rewrite Hlater.
  intros Hnd. now apply NoDup_app in Hnd.
Qed.

(** An error of the transport comes back from [Query] and from [fetch] as
    the transport made it. *)
Lemma Query_transport_error (s : stmt) (w : world) (err : string)
    (rest : list do_outcome) :
  http_NewRequest "POST" (queryURL s) = None ->
  script w = DoErr err :: rest ->
  fst (Query s [] w) = Returns (Err (Foreign from_Do err)).
Proof.
  intros Hreq Hw. unfold Query, queryURL in *.
  change (0 <? Z.of_nat (length (@nil driver_Value))) with false.
  cbv iota zeta. rewrite Hreq.
  unfold mbind, M_bind, bind, mret, M_ret, ret, client_Do.
  now rewrite Hw.
Qed.

Lemma fetch_transport_error (r : rows) (w : world) (err : string)
    (rest : list do_outcome) :
  http_NewRequest "GET" (nextURI r) = None ->
  script w = DoErr err :: rest ->
  fst (fetch r w) = Returns (r, Some (Foreign from_Do err)).
Proof.
  intros Hreq Hw. unfold fetch. rewrite Hw. cbn [length fetch_loop].
  unfold waitForData. rewrite Hreq.
  unfold mbind, M_bind, bind, mret, M_ret, ret, client_Do.
  now rewrite Hw.
Qed.

End Polls.

Lemma handles_polled_in_order_witness :
  polled (trace (snd (run_calls [CallColumns; CallNext [DNil]; CallNext [DNil]]
                                (Demo.fresh Demo.U1)
                                (Demo.serving (map answer [Demo.running Demo.U2; Demo.q_x])))))
    `prefix_of` [Demo.U1; Demo.U2; ""]
  /\ (NoDup [Demo.U1; Demo.U2; ""] ->
      NoDup (polled (trace (snd (run_calls
                                   [CallColumns; CallNext [DNil]; CallNext [DNil]]
                                   (Demo.fresh Demo.U1)
                                   (Demo.serving (map answer [Demo.running Demo.U2;
                                                              Demo.q_x]))))))).
Proof.
  exact (handles_polled_in_order
           [CallColumns; CallNext [DNil]; CallNext [DNil]]
           (Demo.fresh Demo.U1)
           (Demo.serving (map answer [Demo.running Demo.U2; Demo.q_x]))
           [Demo.running Demo.U2; Demo.q_x]
           eq_refl eq_refl
           ltac:(repeat constructor)
           (fun _ _ => eq_refl)).
Defined.

Example polls_of_a_query :
  polled (trace (snd (run_calls [CallColumns; CallNext [DNil]; CallNext [DNil]]
                                (Demo.fresh Demo.U1)
                                (Demo.serving (map answer [Demo.running Demo.U2; Demo.q_x])))))
  = [Demo.U1; Demo.U2].
Proof. reflexivity. Qed.

(** The poll of [U1] is answered FAILED. [Columns] swallows the error and
    leaves the handle in place, so the [Next] that follows polls [U1]
    again. *)
Lemma failed_poll_is_repeated :
  exists r_end w_end,
    run_calls [CallColumns; CallNext []] (Demo.fresh Demo.U1)
              (Demo.serving [answer Demo.q_failed; answer Demo.q_failed])
    = (Returns r_end, w_end)
    /\ polled (trace w_end) = [Demo.U1; Demo.U1]
    /\ ~ NoDup (polled (trace w_end)).
Proof.
  do 2 eexists. split; [reflexivity |]. split; [reflexivity |].
  cbn. intros Hnd. apply NoDup_cons in Hnd as [Hin _].
  apply Hin. now left.
Qed.

(** C1. The transport refuses the connection: the caller gets the
    transport's own error, from the submission and from a poll alike, and
    that error is not [ErrQueryFailed], the value the driver documents for
    a network failure. *)
Lemma transport_error_passed_through :
  fst (Query Demo.select1 [] (Demo.serving [DoErr "dial tcp: connection refused"]))
  = Returns (Err (Foreign from_Do "dial tcp: connection refused"))
  /\ fst (fetch (Demo.fresh Demo.U1)
                (Demo.serving [DoErr "dial tcp: connection refused"]))
     = Returns (Demo.fresh Demo.U1,
                Some (Foreign from_Do "dial tcp: connection refused"))
  /\ Foreign from_Do "dial tcp: connection refused" <> ErrQueryFailed.
Proof.
  split; [| split].
  - exact (Query_transport_error Demo.select1
             (Demo.serving [DoErr "dial tcp: connection refused"])
             "dial tcp: connection refused" [] eq_refl eq_refl).
  - exact (fetch_transport_error (Demo.fresh Demo.U1)
             (Demo.serving [DoErr "dial tcp: connection refused"])
             "dial tcp: connection refused" [] eq_refl eq_refl).
  - discriminate.
Qed.

(** Scenario B of the specification. *)
Lemma Query_state_FAILED_witness :
  exists req,
    Query Demo.select1 [] (Demo.serving [answer Demo.q_failed])
    = (Returns (Err (ServerError Demo.syntax_error)),
       {| script := []; trace := [EvDo req] |})
    /\ Method req = "POST"
    /\ URL req = "http://pdb:9000/v1/statement"
    /\ polled [EvDo req] = []
    /\ sleeps [EvDo req] = [].
Proof.
  exact (Query_state_FAILED Demo.select1 (Demo.serving [answer Demo.q_failed])
           Demo.q_failed [] eq_refl eq_refl eq_refl).
Defined.

(** * Further properties of the driver *)

(** ** Converters and the type table *)

Lemma prefix_append (p : string) :
  forall s, String.prefix p s = true -> exists rest, s = p ++ rest.
Proof.
  induction p as [| a p IH]; intros s Hp.
  - now exists s.
  - destruct s as [| b s]; [discriminate |]. cbn [String.prefix] in Hp.
    destruct (ascii_dec a b) as [<- | _]; [| discriminate].
    destruct (IH s Hp) as [rest ->]. now exists rest.
Qed.

Lemma prefix_cons (a b : ascii) (p s : string) :
  String.prefix (String a p) (String b s) = Ascii.eqb a b && String.prefix p s.
Proof.
  cbn [String.prefix]. destruct (ascii_dec a b) as [<- | Hne].
  - now rewrite Ascii.eqb_refl.
  - apply Ascii.eqb_neq in Hne. now rewrite Hne.
Qed.

Lemma prefix_self (p rest : string) : String.prefix p (p ++ rest) = true.
Proof.
  induction p as [| a p IH]; [now destruct rest |].
  now rewrite append_cons, prefix_cons, Ascii.eqb_refl, IH.
Qed.

Section TypeTable.
Context `{GoLib}.

(** X1. A null value of a column of any declared type, known to the driver or
    not, converts to nil without an error. *)
Theorem null_converts_to_nil (ty : string) :
  ConvertValue (fst (column_converter ty)) VNil = Ok DNil.
Proof.
  unfold column_converter.
  repeat match goal with
         | |- context [if ?b then _ else _] => destruct b
         end; reflexivity.
Qed.

(** X2. Declared types that begin with varchar, char or decimal, whatever
    follows (a length, a precision), are given the string converter and
    raise no notice: none of the cases before theirs in the switch can
    take them. *)
Theorem text_types_use_stringConverter (ty : string) :
  strings.HasPrefix ty VarChar = true
  \/ strings.HasPrefix ty Char = true
  \/ strings.HasPrefix ty Decimal = true ->
  column_converter ty = (of_valueConverterFunc stringConverter, true).
Proof.
  unfold strings.HasPrefix.
  intros [Hp | [Hp | Hp]]; apply prefix_append in Hp as [rest ->];
    unfold column_converter, strings.HasPrefix;
    change (VarChar ++ rest) with (String "v" (String "a" ("rchar" ++ rest)));
    change (Char ++ rest) with (String "c" (String "h" ("ar" ++ rest)));
    change (Decimal ++ rest) with (String "d" (String "e" ("cimal" ++ rest)));
    unfold Row, VarChar, Char, Decimal; rewrite !prefix_cons, ?prefix_self;
    reflexivity.
Qed.

(** A type that begins with row keeps its full declared type in the
    converter, and its non-null values are handed on as they are. *)
Theorem row_types_pass_values (ty : string) (v : value) :
  strings.HasPrefix ty Row = true ->
  v <> VNil ->
  column_converter ty = (of_rowConverter {| rcType := ty |}, true)
  /\ ConvertValue (fst (column_converter ty)) v = Ok (DRaw v).
Proof.
  intros Hp Hv. unfold column_converter. rewrite Hp. split; [reflexivity |].
  now destruct v.
Qed.

End TypeTable.

Lemma text_types_use_stringConverter_witness :
  column_converter "decimal(10,2)" = (of_valueConverterFunc stringConverter, true)
  /\ column_converter "varchar(255)" = (of_valueConverterFunc stringConverter, true)
  /\ column_converter "char(3)" = (of_valueConverterFunc stringConverter, true).
Proof.
  split; [| split].
  - exact (text_types_use_stringConverter "decimal(10,2)" (or_intror (or_intror eq_refl))).
  - exact (text_types_use_stringConverter "varchar(255)" (or_introl eq_refl)).
  - exact (text_types_use_stringConverter "char(3)" (or_intror (or_introl eq_refl))).
Defined.

Lemma row_types_pass_values_witness :
  column_converter "row(a bigint)" = (of_rowConverter {| rcType := "row(a bigint)" |}, true)
  /\ ConvertValue (fst (column_converter "row(a bigint)")) (VArray [Demo.one])
     = Ok (DRaw (VArray [Demo.one])).
Proof.
  exact (row_types_pass_values "row(a bigint)" (VArray [Demo.one]) eq_refl
           ltac:(discriminate)).
Defined.

(** Scenario E of the specification, with the stand-in for
    [driver.String]. *)
Example scenario_E :
  ConvertValue (fst (column_converter "decimal(10,2)")) (VString "12.50")
  = Ok (DString "12.50").
Proof. reflexivity. Qed.

(** ** What a fetch can end with *)

Section FetchShape.
Context `{GoLib}.

(** X5. [fetch] never dereferences a missing answer: whatever the transport
    does and whatever the rows hold, it returns or is still waiting. *)
Theorem fetch_never_panics (r : rows) (w : world) :
  fst (fetch r w) <> Panics.
Proof.
  unfold fetch. pose proof (fetch_loop_shape (S (length (script w))) r w) as Hs.
  intros Hp. now rewrite Hp in Hs.
Qed.

(** X6. When [fetch] returns an error that is not [io.EOF], the rows are as
    they were but for the handle: names, converters, page and cursor are
    untouched, and nothing counts as fetched that did not before. *)
Theorem fetch_error_keeps_cursor (r r' : rows) (w w' : world) (e : error) :
  fetch r w = (Returns (r', Some e), w') ->
  e <> io_EOF ->
  exists u, r' = set_nextURI r u.
Proof.
  intros Hrun Hne. unfold fetch in Hrun.
  pose proof (fetch_loop_shape (S (length (script w))) r w) as Hs.
  rewrite Hrun in Hs. cbn [fst] in Hs.
  destruct Hs as [(e1 & u & _ & -> & _) | (q & _ & Hst & _)]; [eauto |].
  unfold page_status in Hst. destruct (length (Data q) =? 0)%nat; congruence.
Qed.

(** X7. [fetch] returns nil only with a page that has a row, the cursor on
    its first row, and the rows counting as fetched. It returns [io.EOF]
    in two cases: with an empty page, the rows counting as fetched; or
    because the transport held an answer of status 200 whose body the
    decoder found empty, and then the rows are as they were but for the
    handle. *)
Theorem fetch_page_or_EOF (r r' : rows) (w w' : world) (err : option error) :
  fetch r w = (Returns (r', err), w') ->
  (err = None ->
   fetched r' = true /\ rowindex r' = 0%nat /\ exists row, data r' !! 0%nat = Some row)
  /\ (err = Some io_EOF ->
      (fetched r' = true /\ data r' = [])
      \/ (In (DoResp 200 (inl decode_EOF)) (script w)
          /\ exists u, r' = set_nextURI r u)).
Proof.
  intros Hrun. unfold fetch in Hrun.
  pose proof (fetch_loop_shape (S (length (script w))) r w) as Hs.
  rewrite Hrun in Hs. cbn [fst] in Hs.
  destruct Hs as [(e1 & u & -> & -> & Horigin) | (q & -> & -> & _)].
  - split; [discriminate |]. intros [= ->]. right.
    destruct Horigin as [(msg & Hmsg) | (o & Hin & Ho)]; [discriminate |].
    apply poll_error_EOF in Ho as ->. eauto.
  - unfold page_status, with_page. cbn [fetched rowindex data].
    destruct (Data q) as [| row more]; cbn [length Nat.eqb].
    + split; [discriminate | auto].
    + split; [eauto | discriminate].
Qed.

End FetchShape.

Lemma fetch_error_keeps_cursor_witness :
  exists u, Demo.fresh Demo.U1 = set_nextURI (Demo.fresh Demo.U1) u.
Proof.
  exact (fetch_error_keeps_cursor
           (Demo.fresh Demo.U1) (Demo.fresh Demo.U1)
           (Demo.serving [DoResp 503 (inl (decode_failure "no body"))])
           {| script := []; trace := [Demo.poll Demo.U1] |}
           ErrQueryFailed eq_refl ltac:(discriminate)).
Defined.

Lemma fetch_page_or_EOF_witness :
  (fetched (with_page (Demo.fresh Demo.U1) Demo.q_x) = true
   /\ rowindex (with_page (Demo.fresh Demo.U1) Demo.q_x) = 0%nat
   /\ exists row, data (with_page (Demo.fresh Demo.U1) Demo.q_x) !! 0%nat = Some row)
  /\ ((fetched (Demo.fresh Demo.U1) = true /\ data (Demo.fresh Demo.U1) = [])
      \/ (In (DoResp 200 (inl decode_EOF))
             (script (Demo.serving [DoResp 200 (inl decode_EOF); answer Demo.q_x]))
          /\ exists u, Demo.fresh Demo.U1 = set_nextURI (Demo.fresh Demo.U1) u)).
Proof.
  split.
  - exact (proj1 (fetch_page_or_EOF (Demo.fresh Demo.U1)
                    (with_page (Demo.fresh Demo.U1) Demo.q_x)
                    (Demo.serving [answer Demo.q_x])
                    {| script := []; trace := [Demo.poll Demo.U1] |}
                    None eq_refl)
             eq_refl).
  - exact (proj2 (fetch_page_or_EOF (Demo.fresh Demo.U1)
                    (Demo.fresh Demo.U1)
                    (Demo.serving [DoResp 200 (inl decode_EOF); answer Demo.q_x])
                    {| script := [answer Demo.q_x]; trace := [Demo.poll Demo.U1] |}
                    (Some io_EOF) eq_refl)
             eq_refl).
Defined.

(** ** Polls and submissions that end in an error *)

Section PollErrors.
Context `{GoLib}.

Lemma fetch_poll_error (r : rows) (w : world) (o : do_outcome)
    (rest : list do_outcome) (e : error) :
  http_NewRequest "GET" (nextURI r) = None ->
  script w = o :: rest ->
  poll_error o = Some e ->
  fetch r w =
    (Returns (r, Some e),
     {| script := rest;
        trace := trace w ++ [EvDo (poll_request (nextURI r))] |}).
Proof.
  intros Hreq Hw He. unfold fetch. rewrite Hw. cbn [length fetch_loop].
  unfold waitForData, poll_error in *. rewrite Hreq.
  unfold mbind, M_bind, bind, mret, M_ret, ret, client_Do. rewrite Hw.
  destruct o as [err | st body]; [now injection He as <- |].
  destruct (negb (st =? 200)); [now injection He as <- |].
  destruct body as [err | q]; [now injection He as <- |].
  destruct (String.eqb (State q) QueryStateFailed); [now injection He as <- |].
  destruct (String.eqb (State q) QueryStateCanceled); [now injection He as <- |].
  discriminate.
Qed.

(** X8. A poll that is answered with an error (the transport's, a status
    other than 200 whatever the body, an undecodable body, FAILED with the
    server's error, CANCELED) ends [fetch] with that error, after any
    number of "no data yet" answers: the answers that follow are left for
    later, no sleep follows the failed poll, and the rows keep everything
    but the handle, which is the one just polled. *)
Theorem fetch_ends_with_poll_error
    (qs : list queryResponse) (o : do_outcome) (e : error)
    (r : rows) (w : world) (rest : list do_outcome) :
  Forall (fun q => not_ready q = true) qs ->
  requests_ok (nextURI r) qs ->
  http_NewRequest "GET" (last_handle (nextURI r) qs) = None ->
  script w = (map answer qs ++ o :: rest)%list ->
  poll_error o = Some e ->
  fetch r w =
    (Returns (set_nextURI r (last_handle (nextURI r) qs), Some e),
     {| script := rest;
        trace := (trace w ++ backoff_trace (nextURI r) qs)
                 ++ [EvDo (poll_request (last_handle (nextURI r) qs))] |}).
Proof.
  intros Hnr Hok Hlast Hw He.
  rewrite (fetch_skips_not_ready qs r w (o :: rest) Hnr Hok Hw).
  now rewrite (fetch_poll_error (set_nextURI r (last_handle (nextURI r) qs))
                 {| script := o :: rest;
                    trace := trace w ++ backoff_trace (nextURI r) qs |}
                 o rest e Hlast eq_refl He).
Qed.

(** X9. [Columns] on rows that were not fetched answers a failed poll with
    the empty list and no error; the rows still count as not fetched, so
    the next call polls again. *)
Theorem Columns_swallows_poll_error
    (qs : list queryResponse) (o : do_outcome) (e : error)
    (r : rows) (w : world) (rest : list do_outcome) :
  fetched r = false ->
  Forall (fun q => not_ready q = true) qs ->
  requests_ok (nextURI r) qs ->
  http_NewRequest "GET" (last_handle (nextURI r) qs) = None ->
  script w = (map answer qs ++ o :: rest)%list ->
  poll_error o = Some e ->
  exists r' w',
    rows_Columns r w = (Returns (r', []), w')
    /\ fetched r' = false
    /\ nextURI r' = last_handle (nextURI r) qs
    /\ script w' = rest.
Proof.
  intros Hf Hnr Hok Hlast Hw He. unfold rows_Columns. rewrite Hf. cbn [negb].
  unfold mbind at 1, M_bind at 1, bind at 1.
  rewrite (fetch_skips_not_ready qs r w (o :: rest) Hnr Hok Hw).
  rewrite (fetch_poll_error (set_nextURI r (last_handle (nextURI r) qs))
             {| script := o :: rest;
                trace := trace w ++ backoff_trace (nextURI r) qs |}
             o rest e Hlast eq_refl He).
  do 2 eexists. split; [reflexivity |]. now cbn.
Qed.

(** X10. A submission that is answered with a transport error, a status other
    than 200 (whatever the body), an undecodable body or FAILED returns
    that error: one POST was sent, there is no sleep and no rows value. *)
Theorem Query_ends_with_error (s : stmt) (w : world) (o : do_outcome)
    (rest : list do_outcome) (e : error) :
  http_NewRequest "POST" (queryURL s) = None ->
  script w = o :: rest ->
  poll_error o = Some e ->
  e <> ErrQueryCanceled ->
  exists req,
    Query s [] w = (Returns (Err e),
                    {| script := rest; trace := trace w ++ [EvDo req] |})
    /\ Method req = "POST".
Proof.
  intros Hreq Hw He Hnc. unfold Query, queryURL, poll_error in *.
  change (0 <? Z.of_nat (length (@nil driver_Value))) with false.
  cbv iota zeta. rewrite Hreq.
  unfold mbind, M_bind, bind, mret, M_ret, ret, client_Do. rewrite Hw.
  destruct o as [err | st body];
    [injection He as <-; eexists; split; reflexivity |].
  destruct (negb (st =? 200));
    [injection He as <-; eexists; split; reflexivity |].
  destruct body as [err | q];
    [injection He as <-; eexists; split; reflexivity |].
  cbn [as_stmtResponse sState sError].
  change QueryStateFailed with "FAILED" in He.
  destruct (String.eqb (State q) "FAILED");
    [injection He as <-; eexists; split; reflexivity |].
  destruct (String.eqb (State q) QueryStateCanceled); [| discriminate].
  injection He as <-. congruence.
Qed.

(** X11. A submission answered with status 200 and any state but FAILED
    (CANCELED and FINISHED included) succeeds: after the POST the driver
    sleeps 500 ms and hands out rows that hold the answer's handle and
    nothing else; columns and data of that answer are not kept. With no
    handle in the answer the result is empty: the first [Next] returns
    [io.EOF] without a request. *)
Theorem Query_hands_out_rows (s : stmt) (w : world) (envelope : queryResponse)
    (rest : list do_outcome) :
  http_NewRequest "POST" (queryURL s) = None ->
  script w = answer envelope :: rest ->
  State envelope <> "FAILED" ->
  exists req,
    let r := new_rows (stmt_conn s) (NextURI envelope) in
    Query s [] w =
      (Returns (Ok r),
       {| script := rest; trace := trace w ++ [EvDo req; EvSleep 500] |})
    /\ Method req = "POST"
    /\ (NextURI envelope = "" ->
        forall dest w2, Next r dest w2 = (Returns (r, dest, Some io_EOF), w2)).
Proof.
  intros Hreq Hw Hst. unfold Query, queryURL, answer in *.
  change (0 <? Z.of_nat (length (@nil driver_Value))) with false.
  cbv iota zeta. rewrite Hreq.
  unfold mbind, M_bind, bind, mret, M_ret, ret, client_Do, time_Sleep, emit.
  rewrite Hw. change (negb (200 =? 200)) with false. cbv iota.
  cbn [as_stmtResponse sState sError sNextURI].
  apply String.eqb_neq in Hst. rewrite Hst. cbn [script trace].
  eexists. cbv zeta. split.
  { rewrite <- app_assoc. reflexivity. }
  split; [reflexivity |].
  intros Hnext dest w2. unfold Next, new_rows. cbn [fetched negb orb nextURI].
  now rewrite Hnext.
Qed.

End PollErrors.

Lemma fetch_ends_with_poll_error_witness :
  fetch (Demo.fresh Demo.U1)
        (Demo.serving [answer (Demo.running Demo.U2); answer Demo.q_failed;
                       answer Demo.q_x])
  = (Returns (set_nextURI (Demo.fresh Demo.U1) Demo.U2,
              Some (ServerError Demo.syntax_error)),
     {| script := [answer Demo.q_x];
        trace := [Demo.poll Demo.U1; EvSleep 800; Demo.poll Demo.U2] |}).
Proof.
  exact (fetch_ends_with_poll_error [Demo.running Demo.U2] (answer Demo.q_failed)
           (ServerError Demo.syntax_error) (Demo.fresh Demo.U1)
           (Demo.serving [answer (Demo.running Demo.U2); answer Demo.q_failed;
                          answer Demo.q_x])
           [answer Demo.q_x]
           ltac:(repeat constructor) ltac:(split; [reflexivity | exact I])
           eq_refl eq_refl eq_refl).
Defined.

Lemma Columns_swallows_poll_error_witness :
  exists r' w',
    rows_Columns (Demo.fresh Demo.U1)
                 (Demo.serving [DoResp 503 (inr Demo.q_x)])
    = (Returns (r', []), w')
    /\ fetched r' = false
    /\ nextURI r' = Demo.U1
    /\ script w' = [].
Proof.
  exact (Columns_swallows_poll_error [] (DoResp 503 (inr Demo.q_x)) ErrQueryFailed
           (Demo.fresh Demo.U1) (Demo.serving [DoResp 503 (inr Demo.q_x)]) []
           eq_refl ltac:(constructor) I eq_refl eq_refl eq_refl).
Defined.

Lemma Query_ends_with_error_witness :
  exists req,
    Query Demo.select1 [] (Demo.serving [DoResp 500 (inr Demo.q_x)])
    = (Returns (Err ErrQueryFailed), {| script := []; trace := [EvDo req] |})
    /\ Method req = "POST".
Proof.
  exact (Query_ends_with_error Demo.select1
           (Demo.serving [DoResp 500 (inr Demo.q_x)])
           (DoResp 500 (inr Demo.q_x)) [] ErrQueryFailed
           eq_refl eq_refl eq_refl ltac:(discriminate)).
Defined.

Lemma Query_hands_out_rows_witness :
  exists req,
    Query Demo.select1 []
          (Demo.serving [answer {| State := "CANCELED"; Error := Demo.no_error;
                                   NextURI := ""; Columns := []; Data := [] |}])
    = (Returns (Ok (new_rows Demo.pdb "")),
       {| script := []; trace := [EvDo req; EvSleep 500] |})
    /\ Method req = "POST"
    /\ ("" = "" ->
        forall dest w2,
          Next (new_rows Demo.pdb "") dest w2
          = (Returns (new_rows Demo.pdb "", dest, Some io_EOF), w2)).
Proof.
  exact (Query_hands_out_rows Demo.select1
           (Demo.serving [answer {| State := "CANCELED"; Error := Demo.no_error;
                                    NextURI := ""; Columns := []; Data := [] |}])
           {| State := "CANCELED"; Error := Demo.no_error;
              NextURI := ""; Columns := []; Data := [] |}
           [] eq_refl eq_refl ltac:(discriminate)).
Defined.

(** ** Reading rows *)

Section ReadingRows.
Context `{GoLib}.

Lemma drop_cons_lookup {A} (l : list A) (i : nat) (x : A) (l' : list A) :
  drop i l = x :: l' -> l !! i = Some x /\ drop (S i) l = l'.
Proof.
  intros Hd. split.
  - rewrite <- (Nat.add_0_r i), <- lookup_drop, Hd. reflexivity.
  - rewrite <- Nat.add_1_r, <- drop_drop, Hd. reflexivity.
Qed.

(** The loop of [Next] on a row whose values all convert, with room in the
    buffer: slots [i] onwards receive the converted values. *)
Lemma convert_row_ok (convs : list ValueConverter) :
  forall (i : nat) (r : rows) (dest : list driver_Value) (w : world)
         (row : list value) (vals : list driver_Value),
    data r !! rowindex r = Some row ->
    convert_values convs (drop i row) = Some vals ->
    (i + length convs <= length dest)%nat ->
    convert_row i convs r dest w =
      (Returns ((take i dest ++ vals ++ drop (i + length convs) dest)%list, None), w).
Proof.
  induction convs as [| c convs IH]; intros i r dest w row vals Hrow Hvals Hlen.
  - cbn in Hvals. injection Hvals as <-. cbn [convert_row length app].
    rewrite Nat.add_0_r, take_drop. reflexivity.
  - cbn [convert_values] in Hvals.
    destruct (drop i row) as [| raw row'] eqn:Hd; [discriminate |].
    apply drop_cons_lookup in Hd as [Hraw Hd].
    destruct (ConvertValue c raw) as [val | e] eqn:Hc; [| discriminate].
    destruct (convert_values convs row') as [vals' |] eqn:Hrest; [| discriminate].
    injection Hvals as <-. cbn [length] in Hlen.
    cbn [convert_row]. unfold queryData in *. rewrite Hrow, Hraw, Hc.
    assert (Hi : (i <? length dest)%nat = true) by (apply Nat.ltb_lt; lia).
    rewrite Hi.
    rewrite (IH (S i) r (<[i := val]> dest) w row vals' Hrow);
      [| now rewrite Hd | rewrite length_insert; lia].
    rewrite (take_S_r _ i val) by (apply list_lookup_insert_eq; lia).
    rewrite take_insert_ge by lia. rewrite drop_insert_lt by lia.
    cbn [length]. rewrite <- app_assoc. cbn [app].
    now replace (S i + length convs)%nat with (i + S (length convs))%nat by lia.
Qed.

(** The same loop when the conversion of one column fails: the columns
    before it are in the buffer, the error is the converter's. *)
Lemma convert_row_err (pre : list ValueConverter) :
  forall (i : nat) (c : ValueConverter) (post : list ValueConverter)
         (r : rows) (dest : list driver_Value) (w : world)
         (row : list value) (vals : list driver_Value) (raw : value) (e : error),
    data r !! rowindex r = Some row ->
    convert_values pre (drop i row) = Some vals ->
    row !! (i + length pre)%nat = Some raw ->
    ConvertValue c raw = Err e ->
    (i + length pre <= length dest)%nat ->
    convert_row i (pre ++ c :: post) r dest w =
      (Returns ((take i dest ++ vals ++ drop (i + length pre) dest)%list, Some e), w).
Proof.
  induction pre as [| c0 pre IH];
    intros i c post r dest w row vals raw e Hrow Hvals Hraw Hc Hlen.
  - cbn in Hvals. injection Hvals as <-. cbn [length app] in *.
    rewrite Nat.add_0_r in *. cbn [convert_row]. unfold queryData in *. rewrite Hrow, Hraw, Hc.
    now rewrite take_drop.
  - cbn [convert_values] in Hvals.
    destruct (drop i row) as [| raw0 row'] eqn:Hd; [discriminate |].
    apply drop_cons_lookup in Hd as [Hraw0 Hd].
    destruct (ConvertValue c0 raw0) as [val | e0] eqn:Hc0; [| discriminate].
    destruct (convert_values pre row') as [vals' |] eqn:Hrest; [| discriminate].
    injection Hvals as <-. cbn [length] in Hlen, Hraw.
    cbn [app convert_row]. unfold queryData in *. rewrite Hrow, Hraw0, Hc0.
    assert (Hi : (i <? length dest)%nat = true) by (apply Nat.ltb_lt; lia).
    rewrite Hi.
    rewrite (IH (S i) c post r (<[i := val]> dest) w row vals' raw e Hrow);
      [| now rewrite Hd
       | now replace (S i + length pre)%nat with (i + S (length pre))%nat by lia
       | exact Hc
       | rewrite length_insert; lia].
    rewrite (take_S_r _ i val) by (apply list_lookup_insert_eq; lia).
    rewrite take_insert_ge by lia. rewrite drop_insert_lt by lia.
    cbn [length]. rewrite <- app_assoc. cbn [app].
    now replace (S i + length pre)%nat with (i + S (length pre))%nat by lia.
Qed.

(** And when the buffer ends before the columns do: an index out of
    range. *)
Lemma convert_row_short_dest (convs : list ValueConverter) :
  forall (i : nat) (r : rows) (dest : list driver_Value) (w : world)
         (row : list value) (vals : list driver_Value),
    data r !! rowindex r = Some row ->
    convert_values convs (drop i row) = Some vals ->
    (i <= length dest < i + length convs)%nat ->
    convert_row i convs r dest w = (Panics, w).
Proof.
  induction convs as [| c convs IH]; intros i r dest w row vals Hrow Hvals Hlen.
  - cbn [length] in Hlen. lia.
  - cbn [convert_values] in Hvals.
    destruct (drop i row) as [| raw row'] eqn:Hd; [discriminate |].
    apply drop_cons_lookup in Hd as [Hraw Hd].
    destruct (ConvertValue c raw) as [val | e] eqn:Hc; [| discriminate].
    destruct (convert_values convs row') as [vals' |] eqn:Hrest; [| discriminate].
    cbn [length] in Hlen. cbn [convert_row]. unfold queryData in *. rewrite Hrow, Hraw, Hc.
    destruct (i <? length dest)%nat eqn:Hi; [| reflexivity].
    apply Nat.ltb_lt in Hi.
    apply (IH (S i) r (<[i := val]> dest) w row vals' Hrow);
      [now rewrite Hd | rewrite length_insert; lia].
Qed.

(** The loop panics for no other reason than a row or a buffer that is
    shorter than the list of converters. *)
Lemma convert_row_panics (convs : list ValueConverter) :
  forall (i : nat) (r : rows) (dest : list driver_Value) (w w' : world)
         (row : list value),
    data r !! rowindex r = Some row ->
    convert_row i convs r dest w = (Panics, w') ->
    (length row < i + length convs \/ length dest < i + length convs)%nat.
Proof.
  induction convs as [| c convs IH]; intros i r dest w w' row Hrow Hrun;
    [discriminate |].
  cbn [convert_row] in Hrun. unfold queryData in *. rewrite Hrow in Hrun. cbn [length].
  destruct (row !! i) as [raw |] eqn:Hraw;
    [| apply lookup_ge_None in Hraw; lia].
  destruct (ConvertValue c raw); [| discriminate].
  destruct (i <? length dest)%nat eqn:Hi;
    [| apply Nat.ltb_ge in Hi; lia].
  apply (IH (S i) r _ w w' row Hrow) in Hrun. rewrite length_insert in Hrun. lia.
Qed.

(** X14. A row is in hand, its values convert, and the buffer has room: [Next]
    puts the converted values into the first slots of the buffer, leaves
    the other slots, moves the cursor to the next row and makes no
    request. *)
Theorem Next_delivers_row (r : rows) (dest : list driver_Value) (w : world)
    (row : list value) (vals : list driver_Value) :
  fetched r = true ->
  data r !! rowindex r = Some row ->
  convert_values (types r) row = Some vals ->
  (length (types r) <= length dest)%nat ->
  Next r dest w =
    (Returns (set_rowindex r (S (rowindex r)),
              (vals ++ drop (length (types r)) dest)%list, None), w).
Proof.
  intros Hf Hrow Hvals Hlen. unfold Next. rewrite Hf. cbn [negb orb].
  assert (Hin : (length (data r) <=? rowindex r)%nat = false).
  { apply Nat.leb_gt. now apply lookup_lt_Some in Hrow. }
  rewrite Hin. unfold Next_convert, mbind, M_bind, bind, mret, M_ret, ret.
  now rewrite (convert_row_ok (types r) 0 r dest w row vals Hrow Hvals Hlen).
Qed.

(** X15. The conversion of one column of the row in hand fails: [Next] returns
    the converter's error and the cursor stays on the row; the columns
    before the failing one are already in the buffer. No request is
    made. *)
Theorem Next_conversion_error (r : rows) (dest : list driver_Value) (w : world)
    (pre post : list ValueConverter) (c : ValueConverter)
    (row : list value) (vals : list driver_Value) (raw : value) (e : error) :
  fetched r = true ->
  data r !! rowindex r = Some row ->
  types r = (pre ++ c :: post)%list ->
  convert_values pre row = Some vals ->
  row !! length pre = Some raw ->
  ConvertValue c raw = Err e ->
  (length pre <= length dest)%nat ->
  Next r dest w =
    (Returns (r, (vals ++ drop (length pre) dest)%list, Some e), w).
Proof.
  intros Hf Hrow Hty Hvals Hraw Hc Hlen. unfold Next. rewrite Hf. cbn [negb orb].
  assert (Hin : (length (data r) <=? rowindex r)%nat = false).
  { apply Nat.leb_gt. now apply lookup_lt_Some in Hrow. }
  rewrite Hin. unfold Next_convert, mbind, M_bind, bind, mret, M_ret, ret.
  rewrite Hty.
  now rewrite (convert_row_err pre 0 c post r dest w row vals raw e Hrow Hvals Hraw Hc Hlen).
Qed.

(** X16. The buffer has fewer slots than there are columns (as when it was
    sized by a [Columns] call that returned the empty list): [Next]
    panics on the row in hand, although all its values convert. *)
Theorem Next_panics_on_short_buffer (r : rows) (dest : list driver_Value)
    (w : world) (row : list value) (vals : list driver_Value) :
  fetched r = true ->
  data r !! rowindex r = Some row ->
  convert_values (types r) row = Some vals ->
  (length dest < length (types r))%nat ->
  Next r dest w = (Panics, w).
Proof.
  intros Hf Hrow Hvals Hlen. unfold Next. rewrite Hf. cbn [negb orb].
  assert (Hin : (length (data r) <=? rowindex r)%nat = false).
  { apply Nat.leb_gt. now apply lookup_lt_Some in Hrow. }
  rewrite Hin. unfold Next_convert, mbind, M_bind, bind, mret, M_ret, ret.
  rewrite (convert_row_short_dest (types r) 0 r dest w row vals Hrow Hvals);
    [reflexivity | lia].
Qed.

End ReadingRows.

Lemma Next_delivers_row_witness :
  Next (with_page (Demo.fresh Demo.U1) Demo.q_x) [DNil; DBool true]
       (Demo.serving [])
  = (Returns (set_rowindex (with_page (Demo.fresh Demo.U1) Demo.q_x) 1,
              [DInt64 1; DBool true], None),
     Demo.serving []).
Proof.
  exact (Next_delivers_row (with_page (Demo.fresh Demo.U1) Demo.q_x)
           [DNil; DBool true] (Demo.serving []) [Demo.one] [DInt64 1]
           eq_refl eq_refl eq_refl ltac:(cbn; lia)).
Defined.

Lemma Next_conversion_error_witness :
  Next (with_page (Demo.fresh Demo.U1)
          {| State := "FINISHED"; Error := Demo.no_error; NextURI := "";
             Columns := [Demo.col "a" "varchar"; Demo.col "n" "bigint"];
             Data := [[VString "x"; VString "12"]] |})
       [DNil; DNil] (Demo.serving [])
  = (Returns (with_page (Demo.fresh Demo.U1)
                {| State := "FINISHED"; Error := Demo.no_error; NextURI := "";
                   Columns := [Demo.col "a" "varchar"; Demo.col "n" "bigint"];
                   Data := [[VString "x"; VString "12"]] |},
              [DString "x"; DNil],
              Some (Errorf "prestgo: failed to convert 12 (string) into type int64")),
     Demo.serving []).
Proof.
  exact (Next_conversion_error
           (with_page (Demo.fresh Demo.U1)
              {| State := "FINISHED"; Error := Demo.no_error; NextURI := "";
                 Columns := [Demo.col "a" "varchar"; Demo.col "n" "bigint"];
                 Data := [[VString "x"; VString "12"]] |})
           [DNil; DNil] (Demo.serving [])
           [of_valueConverterFunc stringConverter] []
           (of_valueConverterFunc bigIntConverter)
           [VString "x"; VString "12"] [DString "x"] (VString "12")
           (Errorf "prestgo: failed to convert 12 (string) into type int64")
           eq_refl eq_refl eq_refl eq_refl eq_refl eq_refl ltac:(cbn; lia)).
Defined.

Lemma Next_panics_on_short_buffer_witness :
  Next (with_page (Demo.fresh Demo.U1) Demo.q_x) [] (Demo.serving [])
  = (Panics, Demo.serving []).
Proof.
  exact (Next_panics_on_short_buffer (with_page (Demo.fresh Demo.U1) Demo.q_x)
           [] (Demo.serving []) [Demo.one] [DInt64 1]
           eq_refl eq_refl eq_refl ltac:(cbn; lia)).
Defined.

Section Cursor.
Context `{GoLib}.

Lemma polled_backoff_trace (h : string) (qs : list queryResponse) :
  polled (backoff_trace h qs) = removelast (handles h qs).
Proof.
  revert h. induction qs as [| q qs IH]; intros h; [reflexivity |].
  change (polled (backoff_trace h (q :: qs)))
    with (h :: polled (backoff_trace (NextURI q) qs)).
  rewrite IH. reflexivity.
Qed.

Lemma handles_snoc (h : string) (qs : list queryResponse) :
  (removelast (handles h qs) ++ [last_handle h qs])%list = handles h qs.
Proof.
  unfold handles, last_handle. rewrite <- (last_cons (map NextURI qs) h h).
  symmetry. now apply app_removelast_last.
Qed.

(** X17. [Next] does not read past the page: when it panics, a row was in
    hand and that row or the caller's buffer was shorter than the list of
    converters. The row is the one under the cursor of the rows [Next]
    was called on, which were fetched and not used up; or else [Next] had
    to fetch (nothing fetched yet, or the page used up, and a handle in
    hand), [fetch] returned nil with the page of an answer, and the row is
    the first of that page. *)
Theorem Next_panics_only_when_short (r : rows) (dest : list driver_Value)
    (w w' : world) :
  Next r dest w = (Panics, w') ->
  (fetched r = true
   /\ exists row : list value,
        data r !! rowindex r = Some row
        /\ (length row < length (types r) \/ length dest < length (types r))%nat)
  \/ ((fetched r = false \/ (length (data r) <= rowindex r)%nat)
      /\ nextURI r <> ""
      /\ exists (q : queryResponse) (row : list value) (more : list queryData)
               (w1 : world),
           fetch r w = (Returns (with_page r q, None), w1)
           /\ Data q = row :: more
           /\ (length row < length (types (with_page r q))
               \/ length dest < length (types (with_page r q)))%nat).
Proof.
  assert (Hconv : forall r1 w1 (row : list value),
            data r1 !! rowindex r1 = Some row ->
            Next_convert r1 dest w1 = (Panics, w') ->
            (length row < length (types r1) \/ length dest < length (types r1))%nat).
  { intros r1 w1 row Hrow Hrun.
    unfold Next_convert, mbind, M_bind, bind, mret, M_ret, ret in Hrun.
    destruct (convert_row 0 (types r1) r1 dest w1) as [[[d1 [e1 |]] | |] w2] eqn:Hcr;
      try discriminate.
    now apply (convert_row_panics (types r1) 0 r1 dest w1 w2 row Hrow) in Hcr. }
  unfold Next.
  destruct (negb (fetched r) || (length (data r) <=? rowindex r)%nat) eqn:Hdue.
  - destruct (String.eqb (nextURI r) "") eqn:Huri; [discriminate |].
    apply String.eqb_neq in Huri.
    unfold mbind at 1, M_bind at 1, bind at 1.
    pose proof (fetch_loop_shape (S (length (script w))) r w) as Hshape.
    fold (fetch r w) in Hshape.
    destruct (fetch r w) as [[[r1 [e1 |]] | |] w1] eqn:Hfetch; try discriminate;
      cbn [fst] in Hshape; [| contradiction].
    destruct Hshape as [(e & u & Hsome & _) | (q & -> & Hst & _)]; [discriminate |].
    unfold page_status in Hst.
    destruct (Data q) as [| row more] eqn:Hdata; [discriminate |].
    intros Hrun. right. split; [| split; [exact Huri |]].
    + apply orb_true_iff in Hdue as [Hf | Hle].
      * left. now destruct (fetched r).
      * right. now apply Nat.leb_le.
    + exists q, row, more, w1. split; [reflexivity | split; [exact Hdata |]].
      apply (Hconv (with_page r q) w1 row); [| exact Hrun].
      unfold with_page. cbn [data rowindex]. now rewrite Hdata.
  - apply orb_false_iff in Hdue as [Hf Hlt]. apply Nat.leb_gt in Hlt.
    destruct (lookup_lt_is_Some_2 (data r) (rowindex r) Hlt) as [row Hrow].
    intros Hrun. left. split; [now destruct (fetched r) |].
    exists row. split; [exact Hrow | exact (Hconv r w row Hrow Hrun)].
Qed.

(** X18. The page is used up (or nothing was fetched), a handle is in hand,
    and the next accepted answer has rows: [Next] polls through the "no
    data yet" answers, takes the page and returns its first row; the
    cursor is on the second row and the handle is the one of that
    answer. *)
Theorem Next_fetches_next_page
    (qs : list queryResponse) (q : queryResponse) (r : rows) (w : world)
    (rest : list do_outcome) (dest : list driver_Value)
    (row : list value) (more : list queryData) (vals : list driver_Value) :
  fetched r = false \/ (length (data r) <= rowindex r)%nat ->
  nextURI r <> "" ->
  Forall (fun q => not_ready q = true) qs ->
  accepted q = true ->
  Data q = row :: more ->
  requests_ok (nextURI r) (qs ++ [q]) ->
  script w = (map answer qs ++ answer q :: rest)%list ->
  convert_values (types (with_page r q)) row = Some vals ->
  (length (types (with_page r q)) <= length dest)%nat ->
  exists w',
    Next r dest w =
      (Returns (set_rowindex (with_page r q) 1,
                (vals ++ drop (length (types (with_page r q))) dest)%list, None), w')
    /\ script w' = rest
    /\ polled (trace w') = (polled (trace w) ++ handles (nextURI r) qs)%list.
Proof.
  intros Hdue Huri Hnr Hq Hdata Hok Hw Hvals Hlen.
  eexists. split; [| split].
  - unfold Next.
    assert (Hc : negb (fetched r) || (length (data r) <=? rowindex r)%nat = true).
    { apply orb_true_iff. destruct Hdue as [-> | Hle]; [now left | right].
      now apply Nat.leb_le. }
    rewrite Hc. apply String.eqb_neq in Huri. rewrite Huri.
    unfold mbind at 1, M_bind at 1, bind at 1.
    rewrite (fetch_delivers qs q r w rest Hnr Hq Hok Hw).
    unfold page_status. rewrite Hdata. cbn [length Nat.eqb].
    unfold Next_convert, mbind, M_bind, bind, mret, M_ret, ret.
    rewrite (convert_row_ok (types (with_page r q)) 0 (with_page r q) dest _ row vals);
      [reflexivity | | exact Hvals | exact Hlen].
    unfold with_page. cbn [data rowindex]. now rewrite Hdata.
  - reflexivity.
  - cbn [trace]. rewrite !polled_app.
    change (polled (EvDo (poll_request (last_handle (nextURI r) qs)) :: ?more))
      with (last_handle (nextURI r) qs :: polled more).
    assert (Hn : polled (if fetched r then [] else notices (Columns q)) = []).
    { destruct (fetched r); [reflexivity | apply polled_notices]. }
    rewrite Hn, polled_backoff_trace, <- app_assoc. f_equal.
    apply handles_snoc.
Qed.

(** X19. Once the last page is used up and no handle is left, the rows are at
    rest: whatever the caller calls, in whatever order, nothing is
    requested, nothing is printed, no time is spent and the rows do not
    change. *)
Theorem finished_rows_are_at_rest (cs : list call) (r : rows) (w : world) :
  fetched r = true ->
  nextURI r = "" ->
  (length (data r) <= rowindex r)%nat ->
  run_calls cs r w = (Returns r, w).
Proof.
  intros Hf Huri Hend. revert w.
  induction cs as [| [| dest] cs IH]; intros w; [reflexivity | |].
  - cbn [run_calls]. unfold rows_Columns. rewrite Hf. cbn [negb].
    unfold mbind, M_bind, bind, mret, M_ret, ret. apply IH.
  - cbn [run_calls]. unfold Next. rewrite Hf, Huri.
    apply Nat.leb_le in Hend. rewrite Hend. cbn [negb orb String.eqb].
    unfold mbind, M_bind, bind, mret, M_ret, ret. apply IH.
Qed.

End Cursor.

Lemma Next_panics_only_when_short_witness :
  (fetched (Demo.fresh Demo.U1) = true
   /\ exists row : list value,
        data (Demo.fresh Demo.U1) !! rowindex (Demo.fresh Demo.U1) = Some row
        /\ (length row < length (types (Demo.fresh Demo.U1))
            \/ length (@nil driver_Value) < length (types (Demo.fresh Demo.U1)))%nat)
  \/ ((fetched (Demo.fresh Demo.U1) = false
       \/ (length (data (Demo.fresh Demo.U1)) <= rowindex (Demo.fresh Demo.U1))%nat)
      /\ nextURI (Demo.fresh Demo.U1) <> ""
      /\ exists (q : queryResponse) (row : list value) (more : list queryData)
               (w1 : world),
           fetch (Demo.fresh Demo.U1) (Demo.serving [answer Demo.q_x])
           = (Returns (with_page (Demo.fresh Demo.U1) q, None), w1)
           /\ Data q = row :: more
           /\ (length row < length (types (with_page (Demo.fresh Demo.U1) q))
               \/ length (@nil driver_Value)
                  < length (types (with_page (Demo.fresh Demo.U1) q)))%nat).
Proof.
  exact (Next_panics_only_when_short (Demo.fresh Demo.U1) []
           (Demo.serving [answer Demo.q_x])
           {| script := []; trace := [Demo.poll Demo.U1] |} eq_refl).
Defined.

Lemma Next_fetches_next_page_witness :
  exists w',
    Next (set_rowindex (with_page (Demo.fresh Demo.U1) Demo.q_rows_without_columns) 1)
         [DNil]
         (Demo.serving [answer (Demo.running Demo.U3); answer Demo.q_x])
    = (Returns (set_rowindex
                  (with_page (with_page (Demo.fresh Demo.U1) Demo.q_rows_without_columns)
                             Demo.q_x) 1,
                [DNil], None), w')
    /\ script w' = []
    /\ polled (trace w') = [Demo.U2; Demo.U3].
Proof.
  exact (Next_fetches_next_page [Demo.running Demo.U3] Demo.q_x
           (set_rowindex (with_page (Demo.fresh Demo.U1) Demo.q_rows_without_columns) 1)
           (Demo.serving [answer (Demo.running Demo.U3); answer Demo.q_x])
           [] [DNil] [Demo.one] [] []
           (or_intror (le_n 1)) ltac:(discriminate)
           ltac:(repeat constructor) eq_refl eq_refl
           ltac:(vm_compute; tauto) eq_refl eq_refl (le_0_n 1)).
Defined.

Lemma finished_rows_are_at_rest_witness :
  run_calls [CallNext [DNil]; CallColumns; CallNext []]
            (with_page (Demo.fresh Demo.U1) Demo.q_empty)
            (Demo.serving [answer Demo.q_x])
  = (Returns (with_page (Demo.fresh Demo.U1) Demo.q_empty),
     Demo.serving [answer Demo.q_x]).
Proof.
  exact (finished_rows_are_at_rest [CallNext [DNil]; CallColumns; CallNext []]
           (with_page (Demo.fresh Demo.U1) Demo.q_empty)
           (Demo.serving [answer Demo.q_x])
           eq_refl eq_refl ltac:(vm_compute; lia)).
Defined.

Section Width.
Context `{GoLib}.

Lemma fetch_keeps_width (r r' : rows) (w w' : world) (err : option error) :
  length (columns r) = length (types r) ->
  fetch r w = (Returns (r', err), w') ->
  length (columns r') = length (types r').
Proof.
  intros Hwid Hrun. unfold fetch in Hrun.
  pose proof (fetch_loop_shape (S (length (script w))) r w) as Hs.
  rewrite Hrun in Hs. cbn [fst] in Hs.
  destruct Hs as [(e & u & _ & -> & _) | (q & -> & _)]; [exact Hwid |].
  unfold with_page. cbn [columns types].
  destruct (fetched r); [exact Hwid | now rewrite !length_map].
Qed.

(** X20. As many names as converters: rows that start that way (as the rows
    [Query] hands out do) stay that way through every sequence of calls,
    so a row that [Next] delivers has as many values as [Columns] has
    names. *)
Theorem names_and_converters_agree (cs : list call) :
  forall (r r' : rows) (w w' : world),
    length (columns r) = length (types r) ->
    run_calls cs r w = (Returns r', w') ->
    length (columns r') = length (types r').
Proof.
  induction cs as [| [| dest] cs IH]; intros r r' w w' Hwid Hrun.
  - injection Hrun as <- <-. exact Hwid.
  - cbn [run_calls] in Hrun. unfold mbind at 1, M_bind at 1, bind at 1 in Hrun.
    destruct (rows_Columns r w) as [[[r1 names] | |] w1] eqn:Hcol;
      try discriminate.
    apply (IH r1 r' w1 w'); [| exact Hrun].
    unfold rows_Columns in Hcol. destruct (fetched r); cbn [negb] in Hcol.
    + now injection Hcol as <- _ _.
    + unfold mbind at 1, M_bind at 1, bind at 1 in Hcol.
      destruct (fetch r w) as [[[r2 [e2 |]] | |] w2] eqn:Hfetch; try discriminate;
        injection Hcol as <- _ _; now apply (fetch_keeps_width r r2 w w2) in Hfetch.
  - cbn [run_calls] in Hrun. unfold mbind at 1, M_bind at 1, bind at 1 in Hrun.
    destruct (Next r dest w) as [[[[r1 d1] e1] | |] w1] eqn:Hnext;
      try discriminate.
    apply (IH r1 r' w1 w'); [| exact Hrun].
    assert (Hconv : forall r0 w0, length (columns r0) = length (types r0) ->
              Next_convert r0 dest w0 = (Returns (r1, d1, e1), w1) ->
              length (columns r1) = length (types r1)).
    { intros r0 w0 Hw0 Hc. apply Next_convert_rows in Hc as [_ [-> | ->]]; exact Hw0. }
    unfold Next in Hnext.
    destruct (negb (fetched r) || (length (data r) <=? rowindex r)%nat);
      [| now apply (Hconv r w)].
    destruct (String.eqb (nextURI r) ""); [now injection Hnext as <- _ _ _ |].
    unfold mbind at 1, M_bind at 1, bind at 1 in Hnext.
    destruct (fetch r w) as [[[r2 [e2 |]] | |] w2] eqn:Hfetch; try discriminate;
      apply (fetch_keeps_width r r2 w w2) in Hfetch; try exact Hwid.
    + now injection Hnext as <- _ _ _.
    + now apply (Hconv r2 w2).
Qed.

End Width.

Lemma names_and_converters_agree_witness :
  length (columns (set_rowindex (with_page (Demo.fresh Demo.U1) Demo.q_x) 1))
  = length (types (set_rowindex (with_page (Demo.fresh Demo.U1) Demo.q_x) 1)).
Proof.
  exact (names_and_converters_agree [CallColumns; CallNext [DNil]]
           (Demo.fresh Demo.U1)
           (set_rowindex (with_page (Demo.fresh Demo.U1) Demo.q_x) 1)
           (Demo.serving [answer Demo.q_x])
           {| script := []; trace := [Demo.poll Demo.U1] |}
           eq_refl eq_refl).
Defined.

(** ** Data source names: defaults, paths, errors *)

Lemma IndexRune_go_found (s : string) (c : ascii) :
  forall i, has_byte c s = true -> i <= strings.IndexRune_go i s c.
Proof.
  induction s as [| b t IH]; intros i Hs; [discriminate |].
  cbn [has_byte strings.IndexRune_go] in *.
  destruct (Ascii.eqb b c); [lia |].
  cbn [orb] in Hs. specialize (IH (i + 1) Hs). lia.
Qed.

Lemma IndexRune_none (s : string) (c : ascii) :
  strings.IndexRune s c = -1 <-> has_byte c s = false.
Proof.
  unfold strings.IndexRune. split.
  - intros Hi. destruct (has_byte c s) eqn:Hs; [| reflexivity].
    pose proof (IndexRune_go_found s c 0 Hs). lia.
  - generalize 0. induction s as [| b t IH]; intros i Hs; [reflexivity |].
    cbn [has_byte strings.IndexRune_go] in *.
    apply orb_false_iff in Hs as [-> Ht]. now apply IH.
Qed.

Lemma append_empty (s : string) : s ++ "" = s.
Proof.
  induction s as [| a s IH]; [reflexivity |]. now rewrite append_cons, IH.
Qed.

Lemma FieldsFunc_go_field (seg : string) :
  forall (cur : list ascii) (rest : string),
    has_byte "/" seg = false ->
    strings.FieldsFunc_go is_slash (seg ++ rest) cur
    = strings.FieldsFunc_go is_slash rest (rev (list_ascii_of_string seg) ++ cur).
Proof.
  induction seg as [| a seg IH]; intros cur rest Hs; [reflexivity |].
  cbn [has_byte] in Hs. apply orb_false_iff in Hs as [Ha Hs].
  rewrite append_cons. cbn [strings.FieldsFunc_go]. unfold is_slash at 1.
  rewrite Ha, (IH (a :: cur) rest Hs). cbn [list_ascii_of_string rev].
  now rewrite <- app_assoc.
Qed.

Lemma FieldsFunc_go_flush (seg : string) (rest : list string) :
  seg <> "" ->
  match (rev (list_ascii_of_string seg) ++ [])%list with
  | [] => rest
  | _ :: _ => string_of_list_ascii (rev (rev (list_ascii_of_string seg) ++ [])) :: rest
  end = seg :: rest.
Proof.
  intros Hne. rewrite app_nil_r.
  destruct (rev (list_ascii_of_string seg)) as [| a l] eqn:Hrev.
  - apply (f_equal (@rev ascii)) in Hrev. rewrite rev_involutive in Hrev.
    destruct seg; [congruence | discriminate].
  - now rewrite <- Hrev, rev_involutive, string_of_list_ascii_of_string.
Qed.

(** Splitting a path built from segments gives the segments back. *)
Lemma FieldsFunc_Join (segs : list string) :
  Forall segment segs ->
  strings.FieldsFunc_go is_slash (strings.Join segs "/") [] = segs.
Proof.
  induction segs as [| e segs IH]; intros Hsegs; [reflexivity |].
  apply Forall_cons in Hsegs as [[Hne Hslash] Hsegs].
  destruct segs as [| e' segs].
  - cbn [strings.Join]. rewrite <- (append_empty e) at 1.
    rewrite (FieldsFunc_go_field e [] "" Hslash). cbn [strings.FieldsFunc_go].
    now apply FieldsFunc_go_flush.
  - change (strings.Join (e :: e' :: segs) "/")
      with (e ++ String "/" (strings.Join (e' :: segs) "/")).
    rewrite (FieldsFunc_go_field e [] _ Hslash). cbn [strings.FieldsFunc_go].
    change (is_slash "/") with true. cbv iota.
    rewrite (IH Hsegs). now apply FieldsFunc_go_flush.
Qed.

Section DataSourceDefaults.
Context `{GoURL}.

Lemma parseDataSource_lookup_defaults
    (c : gmap string string) (ds : string) (u : url_URL) :
  url_Parse ds = inr u ->
  (forall k, In k ["user"; "addr"; "catalog"; "schema"] ->
             url_ParseQuery (RawQuery u) !! k = None) ->
  let conf := fst (parseDataSource c ds) in
  let segs := strings.FieldsFunc (Path u) is_slash in
  conf !! "user" = Some (default DefaultUsername (User u))
  /\ conf !! "addr" = Some (if has_byte ":" (Host u) then Host u
                            else Host u ++ ":8080")
  /\ conf !! "catalog" = Some (default DefaultCatalog (segs !! 0%nat))
  /\ conf !! "schema" = Some (default DefaultSchema (segs !! 1%nat)).
Proof.
  intros Hu Hq conf segs. subst conf segs. unfold parseDataSource. rewrite Hu.
  cbn [fst]. fold is_slash.
  rewrite !merge_query_lookup.
  rewrite !Hq by (cbn; tauto).
  assert (Haddr : (strings.IndexRune (Host u) ":" =? -1) = negb (has_byte ":" (Host u))).
  { destruct (has_byte ":" (Host u)) eqn:Hb; cbn [negb].
    - apply Z.eqb_neq. intros Hi. apply IndexRune_none in Hi. congruence.
    - apply Z.eqb_eq. now apply IndexRune_none. }
  rewrite Haddr.
  destruct (User u); destruct (has_byte ":" (Host u));
    destruct (strings.FieldsFunc (Path u) is_slash) as [| s0 [| s1 more]];
    cbn [negb]; repeat split; now simplify_map_eq.
Qed.

(** X21. A data source name that parses and whose query string sets none of
    user, addr, catalog and schema: whatever the configuration held
    before, the user is the one of the URL or prestgo, the address is the
    host, with :8080 appended exactly when the host has no colon, and the
    catalog and the schema are the first and the second non-empty segment
    of the path, or hive and default; further segments are ignored. No
    error is returned, and a key that is none of the four and that the
    query string does not set keeps the value it had. *)
Theorem parseDataSource_defaults
    (c : gmap string string) (ds : string) (u : url_URL) :
  url_Parse ds = inr u ->
  (forall k, In k ["user"; "addr"; "catalog"; "schema"] ->
             url_ParseQuery (RawQuery u) !! k = None) ->
  let conf := fst (parseDataSource c ds) in
  let segs := strings.FieldsFunc (Path u) is_slash in
  conf !! "user" = Some (default DefaultUsername (User u))
  /\ conf !! "addr" = Some (if has_byte ":" (Host u) then Host u
                            else Host u ++ ":8080")
  /\ conf !! "catalog" = Some (default DefaultCatalog (segs !! 0%nat))
  /\ conf !! "schema" = Some (default DefaultSchema (segs !! 1%nat))
  /\ snd (parseDataSource c ds) = None
  /\ (forall k, ~ In k ["user"; "addr"; "catalog"; "schema"] ->
                url_ParseQuery (RawQuery u) !! k = None ->
                conf !! k = c !! k).
Proof.
  intros Hu Hq conf segs.
  destruct (parseDataSource_lookup_defaults c ds u Hu Hq) as (Huser & Haddr & Hcat & Hsch).
  repeat split; try assumption.
  - unfold parseDataSource. now rewrite Hu.
  - intros k Hk Hnone. subst conf. unfold parseDataSource. rewrite Hu. cbn [fst].
    rewrite merge_query_lookup, Hnone. cbn in Hk.
    destruct (User u); destruct (strings.IndexRune (Host u) ":" =? -1);
      destruct (strings.FieldsFunc (Path u) _) as [| s0 [| s1 more]];
      rewrite ?lookup_insert_ne by intuition; reflexivity.
Qed.

(** X22. The path of a data source name made of a slash and segments joined by
    slashes (no query parameter interfering): the catalog is the first
    segment and the schema the second, hive and default standing in for
    missing ones. *)
Theorem parseDataSource_path
    (c : gmap string string) (ds : string) (u : url_URL) (segs : list string) :
  url_Parse ds = inr u ->
  (forall k, In k ["user"; "addr"; "catalog"; "schema"] ->
             url_ParseQuery (RawQuery u) !! k = None) ->
  Path u = String "/" (strings.Join segs "/") ->
  Forall segment segs ->
  fst (parseDataSource c ds) !! "catalog"
    = Some (default DefaultCatalog (segs !! 0%nat))
  /\ fst (parseDataSource c ds) !! "schema"
     = Some (default DefaultSchema (segs !! 1%nat)).
Proof.
  intros Hu Hq Hpath Hsegs.
  destruct (parseDataSource_lookup_defaults c ds u Hu Hq) as (_ & _ & Hcat & Hsch).
  rewrite Hpath in Hcat, Hsch.
  assert (Hsplit : strings.FieldsFunc (String "/" (strings.Join segs "/")) is_slash = segs).
  { unfold strings.FieldsFunc. cbn [strings.FieldsFunc_go].
    change (is_slash "/") with true. cbv iota. now apply FieldsFunc_Join. }
  rewrite Hsplit in Hcat, Hsch. now split.
Qed.

(** X23. A data source name that does not parse: [parseDataSource] returns
    the parser's error and leaves the configuration alone; [ClientOpen]
    drops that error and returns, without an error of its own, a
    connection in which every field, the address included, is empty. *)
Theorem ClientOpen_unparsable (ds err : string) (c : gmap string string) :
  url_Parse ds = inl err ->
  parseDataSource c ds = (c, Some (Foreign from_url err))
  /\ ClientOpen ds = Ok {| addr := ""; catalog := ""; schema := "";
                           user := ""; source := ""; session := "" |}.
Proof.
  intros Hu. unfold ClientOpen, parseDataSource. rewrite Hu.
  split; reflexivity.
Qed.

End DataSourceDefaults.

Lemma parseDataSource_path_witness :
  fst (@parseDataSource Demo.plain_url ∅ Demo.plain_dsn) !! "catalog" = Some "sales"
  /\ fst (@parseDataSource Demo.plain_url ∅ Demo.plain_dsn) !! "schema" = Some "default".
Proof.
  exact (@parseDataSource_path Demo.plain_url ∅ Demo.plain_dsn
           {| User := None; Host := "pdb"; Path := "/sales"; RawQuery := "" |}
           ["sales"] eq_refl (fun _ _ => eq_refl) eq_refl
           ltac:(repeat constructor; discriminate)).
Defined.

Lemma parseDataSource_defaults_witness :
  fst (@parseDataSource Demo.plain_url ∅ Demo.plain_dsn) !! "user" = Some "prestgo"
  /\ fst (@parseDataSource Demo.plain_url ∅ Demo.plain_dsn) !! "addr" = Some "pdb:8080"
  /\ fst (@parseDataSource Demo.plain_url ∅ Demo.plain_dsn) !! "catalog" = Some "sales"
  /\ fst (@parseDataSource Demo.plain_url ∅ Demo.plain_dsn) !! "schema" = Some "default"
  /\ snd (@parseDataSource Demo.plain_url ∅ Demo.plain_dsn) = None
  /\ (forall k, ~ In k ["user"; "addr"; "catalog"; "schema"] ->
                (∅ : gmap string (list string)) !! k = None ->
                fst (@parseDataSource Demo.plain_url ∅ Demo.plain_dsn) !! k
                = (∅ : gmap string string) !! k).
Proof.
  exact (@parseDataSource_defaults Demo.plain_url ∅ Demo.plain_dsn
           {| User := None; Host := "pdb"; Path := "/sales"; RawQuery := "" |}
           eq_refl (fun _ _ => eq_refl)).
Defined.

Lemma ClientOpen_unparsable_witness :
  parseDataSource ∅ "presto://%zz" = (∅, Some (Foreign from_url "parse error"))
  /\ ClientOpen "presto://%zz"
     = Ok {| addr := ""; catalog := ""; schema := "";
             user := ""; source := ""; session := "" |}.
Proof.
  exact (ClientOpen_unparsable "presto://%zz" "parse error" ∅ eq_refl).
Defined.

(** ** What a submission puts on the wire *)

Lemma submit_header_is_Query's (c : conn) :
  add_if_set "X-Presto-Session" (session c)
    (add_if_set "X-Presto-Source" (source c)
       [("X-Presto-User", user c); ("X-Presto-Catalog", catalog c);
        ("X-Presto-Schema", schema c)])
  = submit_header c.
Proof.
  unfold add_if_set, submit_header.
  destruct (String.eqb (source c) ""); destruct (String.eqb (session c) "");
    reflexivity.
Qed.

(** Source and session are sent when they are set and left out, not sent
    empty, when they are not. *)
Lemma submit_header_optional (c : conn) (k v : string) :
  In k ["X-Presto-Source"; "X-Presto-Session"] ->
  In (k, v) (submit_header c) <->
  v <> "" /\ ((k = "X-Presto-Source" /\ v = source c)
              \/ (k = "X-Presto-Session" /\ v = session c)).
Proof.
  intros Hk. unfold submit_header.
  destruct (String.eqb_spec (source c) "") as [Hs | Hs];
    destruct (String.eqb_spec (session c) "") as [Ht | Ht];
    cbn; cbn in Hk; split;
    try (intros [Heq | [Heq | [Heq | Hrest]]];
         [destruct Hk as [<- | [<- | []]]; discriminate ..|]);
    intuition (try congruence).
Qed.

Section SubmissionRequest.
Context `{GoLib}.

(** Every request [Query] adds to the trace is the POST of the
    statement. *)
Lemma Query_requests (s : stmt) (args : list driver_Value) (w : world) :
  exists tr,
    trace (snd (Query s args w)) = (trace w ++ tr)%list
    /\ forall req, In (EvDo req) tr ->
                   req = {| Method := "POST"; URL := queryURL s;
                            Header := submit_header (stmt_conn s);
                            Body := query s |}.
Proof.
  assert (Hone : forall (req0 : http_Request) (more : list event),
            (more = [] \/ more = [EvSleep 500]) ->
            forall req, In (EvDo req) (EvDo req0 :: more) -> req = req0).
  { intros req0 more Hmore req [Heq | Hin]; [congruence |].
    destruct Hmore as [-> | ->]; cbn in Hin; intuition discriminate. }
  unfold Query, queryURL.
  destruct (0 <? Z.of_nat (length args)).
  { exists []. cbn. rewrite app_nil_r. split; [reflexivity | tauto]. }
  cbv zeta. rewrite submit_header_is_Query's.
  destruct (http_NewRequest "POST" _).
  { exists []. cbn. rewrite app_nil_r. split; [reflexivity | tauto]. }
  unfold mbind, M_bind, bind, mret, M_ret, ret, client_Do, time_Sleep, emit.
  destruct (script w) as [| [err | st body] rest]; cbn [snd trace];
    try (eexists; split; [reflexivity | apply Hone; auto]).
  destruct (negb (st =? 200));
    [cbn [snd trace]; eexists; split; [reflexivity | apply Hone; auto] |].
  destruct body as [err | q];
    [cbn [snd trace]; eexists; split; [reflexivity | apply Hone; auto] |].
  destruct (String.eqb (sState (as_stmtResponse q)) "FAILED"); cbn [snd trace].
  - eexists. split; [reflexivity | apply Hone; auto].
  - eexists. split; [now rewrite <- app_assoc | apply Hone; auto].
Qed.

(** X12. Whatever the arguments and whatever the transport does, [Query] adds
    to the trace nothing, or one POST of the statement text to
    http://addr/v1/statement with the connection's headers, or that POST
    and a sleep of 500 ms; it never polls. With arguments it fails with
    [ErrNotSupported] and sends nothing. *)
Theorem Query_sends_one_POST (s : stmt) (args : list driver_Value) (w : world) :
  let post := EvDo {| Method := "POST"; URL := queryURL s;
                      Header := submit_header (stmt_conn s);
                      Body := query s |} in
  (exists tr,
      trace (snd (Query s args w)) = (trace w ++ tr)%list
      /\ (tr = [] \/ tr = [post] \/ tr = [post; EvSleep 500])
      /\ polled tr = [])
  /\ (args <> [] -> Query s args w = (Returns (Err ErrNotSupported), w)).
Proof.
  intros post. subst post. unfold Query, queryURL.
  destruct args as [| a args].
  - split; [| congruence].
    change (0 <? Z.of_nat (length (@nil driver_Value))) with false.
    cbv iota zeta. rewrite submit_header_is_Query's.
    destruct (http_NewRequest "POST" _).
    { exists []. cbn. rewrite app_nil_r. auto. }
    unfold mbind, M_bind, bind, mret, M_ret, ret, client_Do, time_Sleep, emit.
    destruct (script w) as [| [err | st body] rest]; cbn [snd trace];
      try (eexists; split; [reflexivity |]; split; [auto | reflexivity]).
    destruct (negb (st =? 200));
      [cbn [snd trace]; eexists; split; [reflexivity |]; split; [auto | reflexivity] |].
    destruct body as [err | q];
      [cbn [snd trace]; eexists; split; [reflexivity |]; split; [auto | reflexivity] |].
    destruct (String.eqb (sState (as_stmtResponse q)) "FAILED"); cbn [snd trace].
    + eexists. split; [reflexivity |]. split; [auto | reflexivity].
    + eexists. split; [now rewrite <- app_assoc |]. split; [auto | reflexivity].
  - split.
    + exists []. cbn [length]. rewrite Nat2Z.inj_succ.
      assert (Hpos : (0 <? Z.succ (Z.of_nat (length args))) = true)
        by (apply Z.ltb_lt; lia).
      rewrite Hpos. cbn. rewrite app_nil_r. auto.
    + intros _. cbn [length]. rewrite Nat2Z.inj_succ.
      assert (Hpos : (0 <? Z.succ (Z.of_nat (length args))) = true)
        by (apply Z.ltb_lt; lia).
      now rewrite Hpos.
Qed.

(** X13. In every request [Query] sends, the source and the session header are
    present exactly when the connection has a source or a session, and
    then carry it: an unset tag is left out, not sent empty. *)
Theorem Query_omits_unset_headers (s : stmt) (args : list driver_Value)
    (w : world) (req : http_Request) (k v : string) :
  In (EvDo req) (trace (snd (Query s args w))) ->
  ~ In (EvDo req) (trace w) ->
  In k ["X-Presto-Source"; "X-Presto-Session"] ->
  In (k, v) (Header req) <->
  v <> "" /\ ((k = "X-Presto-Source" /\ v = source (stmt_conn s))
              \/ (k = "X-Presto-Session" /\ v = session (stmt_conn s))).
Proof.
  intros Hin Hold Hk.
  destruct (Query_requests s args w) as (tr & Htr & Hreqs).
  rewrite Htr in Hin. apply in_app_or in Hin as [Hin | Hin]; [tauto |].
  rewrite (Hreqs req Hin). cbn [Header]. now apply submit_header_optional.
Qed.

End SubmissionRequest.

Section EndToEnd.
Context `{GoURL} `{GoLib}.

(** X24. From a data source name to the wire: the name parses, its query
    string sets nothing, and the request can be built. Then [Open],
    [Prepare] and [Query] send the statement text to the host of the URL
    (with port 8080 when the host has none), as the user of the URL or
    prestgo, for the catalog and the schema of the path or hive and
    default, and with no source and no session header. *)
Theorem Open_Prepare_Query_request
    (ds sql : string) (u : url_URL) (w : world) (o : do_outcome)
    (rest : list do_outcome) :
  url_Parse ds = inr u ->
  url_ParseQuery (RawQuery u) = ∅ ->
  let host := if has_byte ":" (Host u) then Host u else Host u ++ ":8080" in
  let segs := strings.FieldsFunc (Path u) is_slash in
  http_NewRequest "POST" ("http://" ++ host ++ "/v1/statement") = None ->
  script w = o :: rest ->
  exists c s more,
    Open ds = Ok c
    /\ Prepare c sql = Ok s
    /\ trace (snd (Query s [] w)) =
       (trace w
        ++ EvDo {| Method := "POST";
                   URL := "http://" ++ host ++ "/v1/statement";
                   Header := [("X-Presto-User", default DefaultUsername (User u));
                              ("X-Presto-Catalog", default DefaultCatalog (segs !! 0%nat));
                              ("X-Presto-Schema", default DefaultSchema (segs !! 1%nat))];
                   Body := sql |}
        :: more)%list.
Proof.
  intros Hu Hq host segs Hreq Hw.
  assert (Hnone : forall k, url_ParseQuery (RawQuery u) !! k = None).
  { intros k. rewrite Hq. apply lookup_empty. }
  destruct (parseDataSource_lookup_defaults ∅ ds u Hu (fun k _ => Hnone k))
    as (Huser & Haddr & Hcat & Hsch).
  assert (Hother : forall k, ~ In k ["user"; "addr"; "catalog"; "schema"] ->
            fst (parseDataSource ∅ ds) !! k = None).
  { intros k Hk. unfold parseDataSource. rewrite Hu. cbn [fst].
    rewrite merge_query_lookup, Hnone.
    cbn in Hk.
    destruct (User u); destruct (strings.IndexRune (Host u) ":" =? -1);
      destruct (strings.FieldsFunc (Path u) _) as [| s0 [| s1 more]];
      rewrite ?lookup_insert_ne by intuition; apply lookup_empty. }
  set (c := {| addr := host;
               catalog := default DefaultCatalog (segs !! 0%nat);
               schema := default DefaultSchema (segs !! 1%nat);
               user := default DefaultUsername (User u);
               source := ""; session := "" |}).
  assert (Hopen : Open ds = Ok c).
  { unfold Open, ClientOpen, config_get.
    rewrite Huser, Haddr, Hcat, Hsch.
    rewrite !Hother by (cbn; intuition discriminate). reflexivity. }
  exists c, {| stmt_conn := c; query := sql |}.
  assert (Hrun : exists more,
            trace (snd (Query {| stmt_conn := c; query := sql |} [] w)) =
            (trace w
             ++ EvDo {| Method := "POST";
                        URL := "http://" ++ host ++ "/v1/statement";
                        Header := [("X-Presto-User", user c);
                                   ("X-Presto-Catalog", catalog c);
                                   ("X-Presto-Schema", schema c)];
                        Body := sql |}
             :: more)%list).
  { unfold Query. cbn [stmt_conn query].
    change (0 <? Z.of_nat (length (@nil driver_Value))) with false.
    cbv iota zeta. change (addr c) with host. rewrite Hreq.
    change (add_if_set "X-Presto-Session" (session c)
              (add_if_set "X-Presto-Source" (source c)
                 [("X-Presto-User", user c); ("X-Presto-Catalog", catalog c);
                  ("X-Presto-Schema", schema c)]))
      with [("X-Presto-User", user c); ("X-Presto-Catalog", catalog c);
            ("X-Presto-Schema", schema c)].
    unfold mbind at 1, M_bind at 1, bind at 1, client_Do. rewrite Hw.
    unfold mret, M_ret, ret, mbind, M_bind, bind, time_Sleep, emit.
    destruct o as [err | st body]; [now exists [] |].
    destruct (negb (st =? 200)); [now exists [] |].
    destruct body as [err | q]; [now exists [] |].
    destruct (String.eqb (sState (as_stmtResponse q)) "FAILED"); [now exists [] |].
    exists [EvSleep 500]. cbn [snd trace]. now rewrite <- app_assoc. }
  destruct Hrun as [more Hrun]. exists more. now repeat split.
Qed.

End EndToEnd.

Lemma Query_sends_one_POST_witness :
  Query Demo.select1 [DNil] (Demo.serving [answer Demo.q_x])
  = (Returns (Err ErrNotSupported), Demo.serving [answer Demo.q_x]).
Proof.
  exact (proj2 (Query_sends_one_POST Demo.select1 [DNil]
                  (Demo.serving [answer Demo.q_x]))
           ltac:(discriminate)).
Defined.

Lemma Open_Prepare_Query_request_witness :
  exists c s more,
    @Open Demo.plain_url Demo.plain_dsn = Ok c
    /\ Prepare c "SELECT 1" = Ok s
    /\ trace (snd (Query s [] (Demo.serving [answer Demo.q_x]))) =
       EvDo {| Method := "POST";
               URL := "http://pdb:8080/v1/statement";
               Header := [("X-Presto-User", "prestgo");
                          ("X-Presto-Catalog", "sales");
                          ("X-Presto-Schema", "default")];
               Body := "SELECT 1" |}
       :: more.
Proof.
  exact (@Open_Prepare_Query_request Demo.plain_url Demo.go_time Demo.go_lib
           Demo.plain_dsn "SELECT 1"
           {| User := None; Host := "pdb"; Path := "/sales"; RawQuery := "" |}
           (Demo.serving [answer Demo.q_x]) (answer Demo.q_x) []
           eq_refl eq_refl eq_refl eq_refl).
Defined.

Lemma Query_omits_unset_headers_witness :
  In ("X-Presto-Source", "cli") (Header Demo.tagged_post) <->
  "cli" <> "" /\ (("X-Presto-Source" = "X-Presto-Source" /\ "cli" = "cli")
                  \/ ("X-Presto-Source" = "X-Presto-Session" /\ "cli" = "")).
Proof.
  exact (Query_omits_unset_headers Demo.tagged [] (Demo.serving [answer Demo.q_x])
           Demo.tagged_post "X-Presto-Source" "cli"
           (or_introl eq_refl) (fun F => F) (or_introl eq_refl)).
Defined.

(** ** Conversion results and failures *)

Section ConversionResults.
Context `{GoLib}.

(** X3. What [doubleConverter] accepts: nil, any [float64] (returned as it
    is), and the three strings Infinity, -Infinity and NaN, spelled
    exactly so. Every other string, numeric text included, and every
    other kind of value is refused. *)
Theorem doubleConverter_accepts (val : value) (d : driver_Value) :
  doubleConverter val = Ok d <->
  (val = VNil /\ d = DNil)
  \/ (exists f, val = VFloat64 f /\ d = DFloat64 f)
  \/ (val = VString "Infinity" /\ d = DFloat64 (S754_infinity false))
  \/ (val = VString "-Infinity" /\ d = DFloat64 (S754_infinity true))
  \/ (val = VString "NaN" /\ d = DFloat64 S754_nan).
Proof.
  split.
  - destruct val as [| f | s | b | l | m]; cbn [doubleConverter];
      try discriminate.
    + intros Heq. injection Heq as <-. auto.
    + intros Heq. injection Heq as <-. right. left. eauto.
    + destruct (String.eqb_spec s "Infinity") as [-> | _].
      { intros Heq. injection Heq as <-. auto. }
      destruct (String.eqb_spec s "-Infinity") as [-> | _].
      { intros Heq. injection Heq as <-. auto 6. }
      destruct (String.eqb_spec s "NaN") as [-> | _]; [| discriminate].
      intros Heq. injection Heq as <-. auto 6.
  - intros [[-> ->] | [(f & -> & ->) | [[-> ->] | [[-> ->] | [-> ->]]]]];
      reflexivity.
Qed.

(** X4. The error of a failed conversion: the integer, double, date and
    timestamp converters always report the value, its dynamic type and
    the target type; the converter for timestamps with a zone does so
    too, or passes on the error of package [time] when the value has a
    zone part. *)
Theorem conversion_errors (val : value) (e : error) :
  (bigIntConverter val = Err e -> e = convert_failure val "int64")
  /\ (doubleConverter val = Err e -> e = convert_failure val "float64")
  /\ (dateConverter val = Err e -> e = convert_failure val "time.Time")
  /\ (timestampConverter val = Err e -> e = convert_failure val "time.Time")
  /\ (timestampWithTimezoneConverter val = Err e ->
      e = convert_failure val "time.Time"
      \/ exists msg, e = Foreign from_time msg).
Proof.
  assert (Hts : timestampConverter val = Err e -> e = convert_failure val "time.Time").
  { destruct val; cbn [timestampConverter]; try congruence.
    destruct (time_ParseInLocation _ _ _); congruence. }
  repeat split.
  - destruct val; cbn [bigIntConverter]; congruence.
  - destruct val; cbn [doubleConverter]; try congruence.
    repeat match goal with
           | |- context [if ?b then _ else _] => destruct b
           end; congruence.
  - destruct val; cbn [dateConverter]; try congruence.
    destruct (time_ParseInLocation _ _ _); congruence.
  - exact Hts.
  - destruct val as [| f | s | b | l | m]; cbn [timestampWithTimezoneConverter];
      try (left; congruence).
    destruct (strings.len s <=? strings.len TimestampFormat); [auto |].
    destruct (strings.LastIndex s " " =? -1); [auto |].
    destruct (time_LoadLocation _) as [msg | tz].
    { intros Heq. injection Heq as <-. eauto. }
    destruct (time_ParseInLocation _ _ _) as [msg | ts]; [| discriminate].
    intros Heq. injection Heq as <-. eauto.
Qed.

End ConversionResults.

Lemma doubleConverter_accepts_witness :
  doubleConverter (VString "-Infinity") = Ok (DFloat64 (S754_infinity true)).
Proof.
  exact (proj2 (doubleConverter_accepts (VString "-Infinity")
                  (DFloat64 (S754_infinity true)))
           (or_intror (or_intror (or_intror (or_introl (conj eq_refl eq_refl)))))).
Defined.

Lemma conversion_errors_witness :
  Errorf "prestgo: failed to convert 1.5 (string) into type float64"
  = convert_failure (VString "1.5") "float64".
Proof.
  exact (proj1 (proj2 (conversion_errors (VString "1.5")
                         (Errorf "prestgo: failed to convert 1.5 (string) into type float64")))
           eq_refl).
Defined.
